(** * Fish-pond water quality monitor: the evaluation core of [app.py]

    The development embeds the "Evaluation" page of [src/app.py]
    (lines 132-239): the table [safe_ranges], the closure [check_status],
    the dictionary comprehension that builds [status], the data frame
    [df_eval] with its [value_counts] and the final verdict.

    Python values are modelled as the program has them:
    - the readings come from [st.number_input] with float bounds, so they
      are IEEE-754 binary64 numbers: Rocq's primitive [float], whose
      comparisons [<?] and [<=?] are the ones of Python's [<] and [<=]
      (false whenever an operand is NaN);
    - a [dict] is an insertion-ordered association list with unique keys;
    - a raised exception is the [Raise] branch of [result]. *)

From Stdlib Require Import List String ZArith PArith Lia Bool Arith.
From Stdlib Require Import Floats Permutation.
Import ListNotations.

#[local] Set Warnings "-inexact-float".

Open Scope string_scope.
Open Scope list_scope.

(** ** Python values *)

(** The five status labels ["Safe"], ["Low"], ["High"], ["Risky"],
    ["Unsafe"] that [check_status] returns. *)
Inductive Status : Type := Safe | Low | High | Risky | Unsafe.

Definition Status_str (s : Status) : string :=
  match s with
  | Safe => "Safe"
  | Low => "Low"
  | High => "High"
  | Risky => "Risky"
  | Unsafe => "Unsafe"
  end.

(** [s == t] on two status labels. *)
Definition Status_eqb (s t : Status) : bool :=
  match s, t with
  | Safe, Safe | Low, Low | High, High | Risky, Risky | Unsafe, Unsafe => true
  | _, _ => false
  end.

(** The only exception the evaluation code can raise: the [KeyError] of a
    subscript [d[k]] whose key is missing. *)
Inductive exn : Type := KeyError (key : string).

Inductive result (A : Type) : Type :=
| Ok (a : A)
| Raise (e : exn).

Arguments Ok {A} a.
Arguments Raise {A} e.

Definition bind {A B : Type} (m : result A) (k : A -> result B) : result B :=
  match m with
  | Ok a => k a
  | Raise e => Raise e
  end.

Notation "x <- m ;; k" := (bind m (fun x => k))
  (at level 61, m at next level, right associativity).

(** ** Dictionaries *)

Module Dict.

(** Items in insertion order. A well-formed dictionary has no key
    twice ([wf]). *)
Definition dict (V : Type) : Type := list (string * V).

Definition keys {V} (d : dict V) : list string := map fst d.
Definition values {V} (d : dict V) : list V := map snd d.
Definition items {V} (d : dict V) : list (string * V) := d.

Definition wf {V} (d : dict V) : Prop := NoDup (keys d).

(** [d.get(k)] *)
Fixpoint get {V} (d : dict V) (k : string) : option V :=
  match d with
  | [] => None
  | (k', v) :: rest => if String.eqb k k' then Some v else get rest k
  end.

(** [d[k]] *)
Definition subscript {V} (d : dict V) (k : string) : result V :=
  match get d k with
  | Some v => Ok v
  | None => Raise (KeyError k)
  end.

(** [d[k] = v]: an existing key keeps its position, a new key goes last. *)
Fixpoint set {V} (d : dict V) (k : string) (v : V) : dict V :=
  match d with
  | [] => [(k, v)]
  | (k', v') :: rest =>
      if String.eqb k k' then (k', v) :: rest else (k', v') :: set rest k v
  end.

(** [d == d']: the same keys with the same values, in any order. *)
Definition equiv {V} (d d' : dict V) : Prop :=
  forall k, get d k = get d' k.

End Dict.

Import Dict.

(** ** The classifier *)

Section Classifier.

(** The table captured by the closure [check_status]. *)
Variable safe_ranges : dict (float * float).

(** [check_status(param, value)], lines 146-160. [value > high] is
    [high < value] on binary64 numbers. *)
Definition check_status (param : string) (value : float) : result Status :=
  range <- subscript safe_ranges param ;;
  let (low, high) := (range : float * float) in
  if String.eqb param "Ammonia" then
    if (value <=? high)%float then Ok Safe
    else if (value <=? 0.1)%float then Ok Risky
    else Ok Unsafe
  else if (value <? low)%float then Ok Low
  else if (high <? value)%float then Ok High
  else Ok Safe.

End Classifier.

(** The table of lines 138-143. The integer bounds 25, 30, 5, 10 and 0 are
    compared with floats; each of them is exactly a binary64 number, and
    Python compares a float with such an integer through that number. *)
Definition safe_ranges : dict (float * float) :=
  [ ("Temperature", (25, 30)%float);
    ("Dissolved Oxygen", (5, 10)%float);
    ("pH", (6.5, 8.5)%float);
    ("Ammonia", (0, 0.05)%float) ].

(** ** The order of binary64 numbers

    [<?], [<=?] and [=?] are specified by [SFcompare] on the decoded
    number. [SFcompare] is the lexicographic order of a key (sign class,
    exponent, mantissa), undefined on NaN. *)

Module FloatOrder.

Definition key (x : spec_float) : option (Z * Z * Z) :=
  match x with
  | S754_nan => None
  | S754_zero _ => Some (0, 0, 0)%Z
  | S754_infinity true => Some (-2, 0, 0)%Z
  | S754_infinity false => Some (2, 0, 0)%Z
  | S754_finite true m e => Some (-1, - e, - Z.pos m)%Z
  | S754_finite false m e => Some (1, e, Z.pos m)%Z
  end.

Definition lex (a b : Z * Z * Z) : comparison :=
  let '(a1, a2, a3) := a in
  let '(b1, b2, b3) := b in
  match (a1 ?= b1)%Z with
  | Eq => match (a2 ?= b2)%Z with
          | Eq => (a3 ?= b3)%Z
          | c => c
          end
  | c => c
  end.

(** [x < y], [x <= y] and [x == y] on keys. *)
Definition klt (a b : option (Z * Z * Z)) : bool :=
  match a, b with
  | Some a, Some b => match lex a b with Lt => true | _ => false end
  | _, _ => false
  end.

Definition kle (a b : option (Z * Z * Z)) : bool :=
  match a, b with
  | Some a, Some b => match lex a b with Gt => false | _ => true end
  | _, _ => false
  end.

Definition keq (a b : option (Z * Z * Z)) : bool :=
  match a, b with
  | Some a, Some b => match lex a b with Eq => true | _ => false end
  | _, _ => false
  end.

Definition fkey (x : float) : option (Z * Z * Z) := key (Prim2SF x).

End FloatOrder.

(** ** The data frame *)

Module Pandas.

(** One more occurrence of [s] in a tally kept in order of first
    appearance. *)
Fixpoint count_add (s : Status) (acc : list (Status * nat))
  : list (Status * nat) :=
  match acc with
  | [] => [(s, 1)]
  | (t, n) :: rest =>
      if Status_eqb s t then (t, S n) :: rest else (t, n) :: count_add s rest
  end.

Definition tally (col : list Status) : list (Status * nat) :=
  fold_left (fun acc s => count_add s acc) col [].

(** Stable insertion into a list sorted by decreasing count. *)
Fixpoint insert_desc (x : Status * nat) (l : list (Status * nat))
  : list (Status * nat) :=
  match l with
  | [] => [x]
  | y :: rest =>
      if Nat.leb (snd y) (snd x) then x :: y :: rest
      else y :: insert_desc x rest
  end.

Definition sort_desc (l : list (Status * nat)) : list (Status * nat) :=
  fold_right insert_desc [] l.

(** [col.value_counts().reset_index()] with the columns renamed
    [Status], [Count] (lines 176-177): one row per distinct value of the
    column with the number of its occurrences, most frequent first. *)
Definition value_counts (col : list Status) : list (Status * nat) :=
  sort_desc (tally col).

(** The count in the row of [s], 0 when there is no such row. *)
Fixpoint count_of (s : Status) (rows : list (Status * nat)) : nat :=
  match rows with
  | [] => 0
  | (t, n) :: rest => if Status_eqb s t then n else count_of s rest
  end.

End Pandas.

Import Pandas.

(** [df_eval], lines 165-169 and 201-202, column by column. *)
Record DataFrame : Type := {
  col_Parameter : list string;
  col_Value : list float;
  col_Status : list Status;
  col_Ideal_Min : list float;
  col_Ideal_Max : list float
}.

(** What one run of the evaluation computes from [data]. *)
Record EvaluationResult : Type := {
  status : dict Status;
  df_eval : DataFrame;
  status_counts : list (Status * nat);
  verdict : bool
}.

(** ** The evaluator *)

Section Evaluator.

Variable safe_ranges : dict (float * float).

(** Line 162, [{param: check_status(param, val) for param, val in
    data.items()}]: the items are classified in order and stored one by
    one; the first exception ends the comprehension. *)
Fixpoint status_comprehension (its : list (string * float))
  (acc : dict Status) : result (dict Status) :=
  match its with
  | [] => Ok acc
  | (param, val) :: rest =>
      s <- check_status safe_ranges param val ;;
      status_comprehension rest (set acc param s)
  end.

(** Lines 198-199, [[safe_ranges[p][i] for p in df_eval["Parameter"]]]. *)
Fixpoint ideal (proj : float * float -> float) (params : list string)
  : result (list float) :=
  match params with
  | [] => Ok []
  | p :: rest =>
      range <- subscript safe_ranges p ;;
      tl <- ideal proj rest ;;
      Ok (proj range :: tl)
  end.

(** Lines 162-239 without the calls that only display (the charts and the
    recommendation messages): the status dictionary, the data frame, the
    status counts and the condition of the final verdict (line 236). *)
Definition evaluate (data : dict float) : result EvaluationResult :=
  status <- status_comprehension (items data) [] ;;
  let status_counts := value_counts (values status) in
  ideal_min <- ideal fst (keys data) ;;
  ideal_max <- ideal snd (keys data) ;;
  Ok {| status := status;
        df_eval := {| col_Parameter := keys data;
                      col_Value := values data;
                      col_Status := values status;
                      col_Ideal_Min := ideal_min;
                      col_Ideal_Max := ideal_max |};
        status_counts := status_counts;
        verdict := forallb (fun s => Status_eqb s Safe) (values status) |}.

End Evaluator.

(** The number of parameters of a reading that [check_status] classifies
    as [s]. *)
Definition classified_as (safe_ranges : dict (float * float)) (s : Status)
  (data : dict float) : nat :=
  List.length
    (filter
       (fun kv : string * float =>
          match check_status safe_ranges (fst kv) (snd kv) with
          | Ok t => Status_eqb s t
          | Raise _ => false
          end)
       (items data)).

(** ** Definitions used by the statements *)

(** The three parameters classified by their two bounds, with the bounds
    the table gives them. *)
Definition two_sided : list (string * (float * float)) :=
  [ ("Temperature", (25, 30)%float);
    ("Dissolved Oxygen", (5, 10)%float);
    ("pH", (6.5, 8.5)%float) ].

(** Every parameter of the reading has a row in the table. *)
Definition configured (table : dict (float * float)) (data : dict float)
  : Prop :=
  forall p, In p (keys data) -> get table p <> None.

(** The items of a reading classified one by one, without the dictionary
    that the comprehension fills. *)
Fixpoint classify_items (table : dict (float * float))
  (its : list (string * float)) : result (list (string * Status)) :=
  match its with
  | [] => Ok []
  | (param, val) :: rest =>
      s <- check_status table param val ;;
      tl <- classify_items table rest ;;
      Ok ((param, s) :: tl)
  end.

(** The number of occurrences of [s] in a column. *)
Definition occurrences (s : Status) (col : list Status) : nat :=
  List.length (filter (Status_eqb s) col).

(** Python's [==] on two readings' values for one key. *)
Definition value_eq (v v' : float) : Prop :=
  v = v' \/ (v =? v')%float = true.

(** Rows as [value_counts] makes them: no value twice, no count of 0. *)
Definition rows_wf (rows : list (Status * nat)) : Prop :=
  NoDup (map fst rows) /\ Forall (fun r => 0 < snd r) rows.

(** One item of a reading and its classification. *)
Definition classified (table : dict (float * float))
  (kv : string * float) (ks : string * Status) : Prop :=
  fst ks = fst kv /\ check_status table (fst kv) (snd kv) = Ok (snd ks).

(** Readings in the key order of line 119. *)
Definition reading {V : Type} (temp do ammonia ph : V) : dict V :=
  [ ("Temperature", temp); ("Dissolved Oxygen", do);
    ("Ammonia", ammonia); ("pH", ph) ].

Definition reading_healthy : dict float :=
  reading 27%float 7%float 0.02%float 7.2%float.

Definition reading_cold : dict float :=
  reading 20%float 7%float 0.02%float 7.2%float.

Definition reading_ammonia : dict float :=
  reading 27%float 7%float 0.2%float 7.2%float.

(** [reading_cold] with the keys in another order. *)
Definition reading_cold_permuted : dict float :=
  [ ("pH", 7.2%float); ("Ammonia", 0.02%float);
    ("Temperature", 20%float); ("Dissolved Oxygen", 7%float) ].

(** A reading with a key that [safe_ranges] does not have. *)
Definition reading_unconfigured : dict float :=
  [ ("Temperature", 27%float); ("Salinity", 3%float); ("pH", 7.2%float) ].

(** Two readings with the same keys in the same order and, key by key,
    the same number. *)
Definition same_reading (data data' : dict float) : Prop :=
  Forall2 (fun kv kv' => fst kv = fst kv' /\ value_eq (snd kv) (snd kv'))
    data data'.

(** What an evaluation shows: everything but the echo of the entered
    values. *)
Definition outcome (r : EvaluationResult)
  : dict Status * list (Status * nat) * bool
    * (list string * list Status * list float * list float) :=
  (status r, status_counts r, verdict r,
   (col_Parameter (df_eval r), col_Status (df_eval r),
    col_Ideal_Min (df_eval r), col_Ideal_Max (df_eval r))).

Definition result_map {A B : Type} (f : A -> B) (m : result A) : result B :=
  match m with
  | Ok a => Ok (f a)
  | Raise e => Raise e
  end.

(** ** The exceptions by name *)

(** The class of a raised exception, as Python names it. The only
    exception of the evaluation code is the built-in [KeyError] of a
    subscript; the program defines no exception class of its own and
    wraps no exception in another. *)
Definition exn_name (e : exn) : string :=
  match e with
  | KeyError _ => "KeyError"
  end.

(** ** The evaluation over the objects it can reach

    The closure [check_status] reads the variable [safe_ranges] each time
    it is called, and the script runs beside [st.session_state], which
    outlives a run. Here these objects are an explicit store that every
    step receives and returns, so that what a call leaves behind for the
    next call is part of its result. *)

Record Store : Type := {
  g_safe_ranges : dict (float * float);
  g_session_state : dict (dict float)
}.

(** A step of the script: from a store, a value or an exception, and the
    store it leaves. *)
Definition M (A : Type) : Type := Store -> result A * Store.

Definition retM {A : Type} (a : A) : M A := fun st => (Ok a, st).

Definition raiseM {A : Type} (e : exn) : M A := fun st => (Raise e, st).

Definition bindM {A B : Type} (m : M A) (k : A -> M B) : M B :=
  fun st =>
    match m st with
    | (Ok a, st') => k a st'
    | (Raise e, st') => (Raise e, st')
    end.

Notation "x <-- m ;; k" := (bindM m (fun x => k))
  (at level 61, m at next level, right associativity).

(** Reading the variable [safe_ranges]. *)
Definition read_safe_ranges : M (dict (float * float)) :=
  fun st => (Ok (g_safe_ranges st), st).

(** The assignment [safe_ranges = {...}] of lines 138-143. *)
Definition assign_safe_ranges (table : dict (float * float)) : M unit :=
  fun st =>
    (Ok tt, {| g_safe_ranges := table;
               g_session_state := g_session_state st |}).

(** [safe_ranges[param]] *)
Definition subscript_safe_ranges (param : string) : M (float * float) :=
  table <-- read_safe_ranges ;;
  match get table param with
  | Some range => retM range
  | None => raiseM (KeyError param)
  end.

(** [check_status(param, value)], lines 146-160, statement by
    statement. *)
Definition check_status_m (param : string) (value : float) : M Status :=
  range <-- subscript_safe_ranges param ;;
  let (low, high) := (range : float * float) in
  if String.eqb param "Ammonia" then
    if (value <=? high)%float then retM Safe
    else if (value <=? 0.1)%float then retM Risky
    else retM Unsafe
  else if (value <? low)%float then retM Low
  else if (high <? value)%float then retM High
  else retM Safe.

(** Line 162. *)
Fixpoint status_comprehension_m (its : list (string * float))
  (acc : dict Status) : M (dict Status) :=
  match its with
  | [] => retM acc
  | (param, val) :: rest =>
      s <-- check_status_m param val ;;
      status_comprehension_m rest (set acc param s)
  end.

(** Lines 198-199. *)
Fixpoint ideal_m (proj : float * float -> float) (params : list string)
  : M (list float) :=
  match params with
  | [] => retM []
  | p :: rest =>
      range <-- subscript_safe_ranges p ;;
      tl <-- ideal_m proj rest ;;
      retM (proj range :: tl)
  end.

(** Lines 138-239 on the reading [data], without the calls that only
    display: the assignment of the table, then the steps of
    [evaluate]. *)
Definition evaluate_m (data : dict float) : M EvaluationResult :=
  _ <-- assign_safe_ranges safe_ranges ;;
  status <-- status_comprehension_m (items data) [] ;;
  let status_counts := value_counts (values status) in
  ideal_min <-- ideal_m fst (keys data) ;;
  ideal_max <-- ideal_m snd (keys data) ;;
  retM {| status := status;
          df_eval := {| col_Parameter := keys data;
                        col_Value := values data;
                        col_Status := values status;
                        col_Ideal_Min := ideal_min;
                        col_Ideal_Max := ideal_max |};
          status_counts := status_counts;
          verdict := forallb (fun s => Status_eqb s Safe) (values status) |}.

(** ** The rest of the evaluation page *)

(** [value != value], true of NaN only. *)
Definition is_nan (v : float) : bool := negb (v =? v)%float.

(** The calls [st.success], [st.warning] and [st.error]. *)
Inductive Level : Type := success | warning | error.

(** Lines 228-233: the call chosen for a status. *)
Definition recommendation_level (s : Status) : Level :=
  if Status_eqb s Safe then success
  else if existsb (Status_eqb s) [Low; Risky] then warning
  else error.

(** One recommendation: the call, and the parameter and the value that
    its text shows. *)
Record Message : Type := {
  msg_level : Level;
  msg_param : string;
  msg_value : float
}.

(** Lines 226-233, [for param, s in status.items(): val = data[param]
    ...]. *)
Fixpoint recommendations (data : dict float) (its : list (string * Status))
  : result (list Message) :=
  match its with
  | [] => Ok []
  | (param, s) :: rest =>
      val <- subscript data param ;;
      tl <- recommendations data rest ;;
      Ok ({| msg_level := recommendation_level s;
             msg_param := param;
             msg_value := val |} :: tl)
  end.

(** Lines 236-239: the call of the final verdict. *)
Definition final_verdict (status : dict Status) : Level :=
  if forallb (fun s => Status_eqb s Safe) (values status) then success
  else error.

(** [color_discrete_map] of the pie chart (lines 185-191) and of the bar
    chart (lines 211-217). *)
Definition pie_color_map : dict string :=
  [ ("Safe", "green"); ("Low", "orange"); ("High", "red");
    ("Risky", "orange"); ("Unsafe", "red") ].

Definition bar_color_map : dict string :=
  [ ("Safe", "green"); ("Low", "orange"); ("High", "red");
    ("Risky", "orange"); ("Unsafe", "red") ].

(** Two columns side by side; there is no such table when their lengths
    differ. *)
Fixpoint zip {A B : Type} (xs : list A) (ys : list B)
  : option (list (A * B)) :=
  match xs, ys with
  | [], [] => Some []
  | x :: xs', y :: ys' =>
      match zip xs' ys' with
      | Some rest => Some ((x, y) :: rest)
      | None => None
      end
  | _, _ => None
  end.

(** The rows of [df_eval]. A data frame has rows only when its columns
    have one length: [pd.DataFrame] (line 165) and the column assignments
    (lines 201-202) raise otherwise. *)
Definition df_rows (df : DataFrame)
  : option (list (string * float * Status * float * float)) :=
  match zip (col_Parameter df) (col_Value df) with
  | None => None
  | Some pv =>
      match zip pv (col_Status df) with
      | None => None
      | Some pvs =>
          match zip pvs (col_Ideal_Min df) with
          | None => None
          | Some pvsl => zip pvsl (col_Ideal_Max df)
          end
      end
  end.

(** The sum of the [Count] column. *)
Definition total_count (rows : list (Status * nat)) : nat :=
  fold_right (fun r acc => snd r + acc) 0 rows.

(** What the evaluation page shows. *)
Inductive PageOutput : Type :=
| NoInputs
| Evaluated (r : EvaluationResult) (recs : list Message) (final : Level).

(** Lines 126-239 as a function of [st.session_state]: the warning of
    line 130 when there is no key ["inputs"], the evaluation of
    [st.session_state["inputs"]] otherwise. *)
Definition evaluation_page (session_state : dict (dict float))
  : result PageOutput :=
  match get session_state "inputs" with
  | None => Ok NoInputs
  | Some data =>
      r <- evaluate safe_ranges data ;;
      recs <- recommendations data (items (status r)) ;;
      Ok (Evaluated r recs (final_verdict (status r)))
  end.

(** ** The input page *)

(** The four [st.number_input] values and the submit button of lines
    109-115. *)
Record Form : Type := {
  temp : float;
  do : float;
  ammonia : float;
  ph : float;
  submitted : bool
}.

(** Lines 117-121: a submitted form is stored under ["inputs"]. *)
Definition farmer_input_page (f : Form) (session_state : dict (dict float))
  : dict (dict float) :=
  if submitted f then
    set session_state "inputs" (reading (temp f) (do f) (ammonia f) (ph f))
  else session_state.

(** ** The dataset and the dashboard *)

(** A data set: its columns by name; a cell is a number or missing. *)
Definition Frame : Type := dict (list (option float)).

(** [col.dropna()] *)
Definition dropna (col : list (option float)) : list float :=
  flat_map (fun c => match c with Some x => [x] | None => [] end) col.

(** Lines 53-58. *)
Definition DISPLAY_TO_DF : dict string :=
  [ ("pH", "ph"); ("Temperature", "Temperature");
    ("Dissolved Oxygen", "Dissolved_Oxygen"); ("Ammonia", "Ammonia") ].

(** What one pane of the dashboard shows: the note of [st.info], the
    histogram of the values of a column, or the box plot of a column. *)
Inductive Pane : Type :=
| NoData (parameter : string)
| Histogram (parameter : string) (data : list float)
| BoxPlot (parameter df_col : string).

(** Lines 81 and 94, [DISPLAY_TO_DF.get(parameter, parameter)]. *)
Definition display_column (parameter : string) : string :=
  match get DISPLAY_TO_DF parameter with
  | Some c => c
  | None => parameter
  end.

(** Lines 82 and 95, [df_col not in df.columns or
    df[df_col].dropna().empty]. *)
Definition no_data (df : Frame) (df_col : string) : bool :=
  match get df df_col with
  | None => true
  | Some col =>
      match dropna col with
      | [] => true
      | _ :: _ => false
      end
  end.

(** Lines 81-90. *)
Definition histogram_pane (df : Frame) (parameter : string) : Pane :=
  let df_col := display_column parameter in
  if no_data df df_col then NoData parameter
  else
    match get df df_col with
    | Some col => Histogram parameter (dropna col)
    | None => NoData parameter
    end.

(** Lines 94-99. *)
Definition box_pane (df : Frame) (parameter : string) : Pane :=
  let df_col := display_column parameter in
  if no_data df df_col then NoData parameter
  else BoxPlot parameter df_col.

(** What [load_data] reports besides its result. *)
Inductive Notice : Type :=
| ReadFailed (path : string)
| NotFound.

(** [os.path.join] of [posixpath], one component at a time. *)
Definition join1 (path b : string) : string :=
  if String.prefix "/" b then b
  else if String.eqb path "" then (path ++ b)%string
  else if String.eqb (substring (String.length path - 1) 1 path) "/"
       then (path ++ b)%string
  else (path ++ "/" ++ b)%string.

Definition path_join (a : string) (ps : list string) : string :=
  fold_left join1 ps a.

(** The memo that [@st.cache_data] (line 19) keeps for [load_data], which
    takes no argument: empty, or the data set and the notices of the one
    execution of the body. *)
Definition Cache : Type := option (Frame * list Notice).

Section Loader.

(** The file system as [load_data] sees it: [os.path.exists], and
    [pd.read_csv], which returns a data set or raises. *)
Variable path_exists : string -> bool.
Variable read_csv : string -> option Frame.

(** [os.path.dirname(__file__)] *)
Variable file_dir : string.

(** Lines 25-30. *)
Definition candidates : list string :=
  [ "water.csv";
    path_join "data" ["water.csv"];
    path_join file_dir ["data"; "water.csv"];
    path_join file_dir ["water.csv"] ].

(** [pd.DataFrame(columns=columns)] of lines 46-47. *)
Definition fallback_frame : Frame :=
  map (fun c => (c, [])) ["ph"; "Temperature"; "Dissolved_Oxygen"; "Ammonia"].

(** The loop of lines 32-39 and the fall-through of lines 41-47. *)
Fixpoint load_from (ps : list string) : Frame * list Notice :=
  match ps with
  | [] => (fallback_frame, [NotFound])
  | p :: rest =>
      if negb (String.eqb p "") && path_exists p then
        match read_csv p with
        | Some df => (df, [])
        | None => ([], [ReadFailed p])
        end
      else load_from rest
  end.

(** The body of [load_data], lines 21-47. *)
Definition load_data_uncached : Frame * list Notice := load_from candidates.

(** What a call served from the memo shows again of the recorded
    notices; this is Streamlit's business and is left open. *)
Variable replay : list Notice -> list Notice.

(** [load_data()] as decorated in line 19: the body runs when the memo is
    empty and its result is kept; otherwise the kept data set is
    returned and the file system is not looked at. *)
Definition load_data (cache : Cache) : Frame * list Notice * Cache :=
  match cache with
  | Some entry => (fst entry, replay (snd entry), cache)
  | None => (fst load_data_uncached, snd load_data_uncached,
             Some load_data_uncached)
  end.

End Loader.

(** ** The pages of one session *)

Inductive Page : Type := Dashboard | FarmerInput | Evaluation.

(** The widgets that decide what one run of the script stores: the page
    chosen in the sidebar (line 14) and the form. *)
Record Widgets : Type := {
  page : Page;
  form : Form
}.

(** [st.session_state] after one run of the script: only the input page
    writes it (lines 117-119). *)
Definition run_state (w : Widgets) (session_state : dict (dict float))
  : dict (dict float) :=
  match page w with
  | FarmerInput => farmer_input_page (form w) session_state
  | Dashboard | Evaluation => session_state
  end.

(** [st.session_state] after the runs of a session, one after the
    other. *)
Definition session_after (ws : list Widgets)
  (session_state : dict (dict float)) : dict (dict float) :=
  fold_left (fun ss w => run_state w ss) ws session_state.

(** The reading that a form holds (line 119). *)
Definition form_reading (f : Form) : dict float :=
  reading (temp f) (do f) (ammonia f) (ph f).

(** A run that stores a reading: the input page with the button
    pressed. *)
Definition submits (w : Widgets) : bool :=
  match page w with
  | FarmerInput => submitted (form w)
  | _ => false
  end.

(** The reading under ["inputs"] after the runs [ws], from [current]. *)
Fixpoint stored_inputs (ws : list Widgets) (current : option (dict float))
  : option (dict float) :=
  match ws with
  | [] => current
  | w :: rest =>
      stored_inputs rest
        (if submits w then Some (form_reading (form w)) else current)
  end.

(** ** Facts on the order of binary64 numbers *)

Module FloatOrderFacts.
Import FloatOrder.

Lemma SFcompare_key x y :
  SFcompare x y =
  match key x, key y with
  | Some a, Some b => Some (lex a b)
  | _, _ => None
  end.
Proof.
  destruct x as [sx|sx| |sx mx ex], y as [sy|sy| |sy my ey];
    try destruct sx; try destruct sy; try reflexivity.
  cbn [SFcompare key lex].
  rewrite !Z.compare_opp.
  change (Z.pos my ?= Z.pos mx)%Z with (my ?= mx)%positive.
  change (Pos.compare_cont Eq mx my) with (mx ?= my)%positive.
  rewrite (Z.compare_antisym ey ex), (Pos.compare_antisym my mx).
  destruct (ey ?= ex)%Z, (my ?= mx)%positive; reflexivity.
Qed.

Lemma ltb_key x y : (x <? y)%float = klt (fkey x) (fkey y).
Proof.
  rewrite ltb_spec. unfold SFltb, klt, fkey. rewrite SFcompare_key.
  destruct (key (Prim2SF x)), (key (Prim2SF y)); reflexivity.
Qed.

Lemma leb_key x y : (x <=? y)%float = kle (fkey x) (fkey y).
Proof.
  rewrite leb_spec. unfold SFleb, kle, fkey. rewrite SFcompare_key.
  destruct (key (Prim2SF x)) as [a|], (key (Prim2SF y)) as [b|];
    reflexivity.
Qed.

Lemma eqb_key x y : (x =? y)%float = keq (fkey x) (fkey y).
Proof.
  rewrite eqb_spec. unfold SFeqb, keq, fkey. rewrite SFcompare_key.
  destruct (key (Prim2SF x)), (key (Prim2SF y)); reflexivity.
Qed.

Lemma lex_spec a b :
  let '(a1, a2, a3) := a in
  let '(b1, b2, b3) := b in
  match lex a b with
  | Lt => (a1 < b1 \/ (a1 = b1 /\ (a2 < b2 \/ (a2 = b2 /\ a3 < b3))))%Z
  | Eq => a = b
  | Gt => (b1 < a1 \/ (a1 = b1 /\ (b2 < a2 \/ (a2 = b2 /\ b3 < a3))))%Z
  end.
Proof.
  destruct a as [[a1 a2] a3], b as [[b1 b2] b3]; unfold lex.
  destruct (Z.compare_spec a1 b1), (Z.compare_spec a2 b2),
    (Z.compare_spec a3 b3); subst; try reflexivity; lia.
Qed.

(** Splits a goal about [klt], [kle], [keq] on keys into linear
    arithmetic on their components. *)
Ltac key_order :=
  unfold klt, kle, keq in *;
  repeat match goal with
    | k : option (Z * Z * Z) |- _ => destruct k as [[[? ?] ?]|]
    end;
  try discriminate; try reflexivity;
  repeat match goal with
    | |- context [lex ?a ?b] =>
        let H := fresh "L" in
        pose proof (lex_spec a b) as H; cbv beta iota in H;
        destruct (lex a b)
    | _ : context [lex ?a ?b] |- _ =>
        let H := fresh "L" in
        pose proof (lex_spec a b) as H; cbv beta iota in H;
        destruct (lex a b)
    end;
  try discriminate; try reflexivity;
  repeat match goal with
    | E : (_, _, _) = (_, _, _) |- _ => injection E as ? ? ?
    end;
  try (exfalso; lia).

Lemma klt_kle_false a b : klt a b = true -> kle b a = false.
Proof. intros H. key_order. Qed.

Lemma kle_klt_false a b : kle a b = true -> klt b a = false.
Proof. intros H. key_order. Qed.

Lemma klt_irrefl a : klt a a = false.
Proof. key_order. Qed.

Lemma klt_kle a b : klt a b = true -> kle a b = true.
Proof. intros H. key_order. Qed.

Lemma klt_trans a b c : klt a b = true -> klt b c = true -> klt a c = true.
Proof. intros H1 H2. key_order. Qed.

Lemma kle_klt_trans a b c :
  kle a b = true -> klt b c = true -> klt a c = true.
Proof. intros H1 H2. key_order. Qed.

Lemma klt_kle_trans a b c :
  klt a b = true -> kle b c = true -> klt a c = true.
Proof. intros H1 H2. key_order. Qed.

Lemma keq_klt_l a b c : keq a b = true -> klt a c = klt b c.
Proof. intros H. key_order. Qed.

Lemma keq_klt_r a b c : keq a b = true -> klt c a = klt c b.
Proof. intros H. key_order. Qed.

Lemma keq_kle_l a b c : keq a b = true -> kle a c = kle b c.
Proof. intros H. key_order. Qed.

(** The same facts on the comparisons of the program. *)

Lemma ltb_leb_false x y : (x <? y)%float = true -> (y <=? x)%float = false.
Proof. rewrite ltb_key, leb_key. apply klt_kle_false. Qed.

Lemma leb_ltb_false x y : (x <=? y)%float = true -> (y <? x)%float = false.
Proof. rewrite ltb_key, leb_key. apply kle_klt_false. Qed.

Lemma ltb_leb x y : (x <? y)%float = true -> (x <=? y)%float = true.
Proof. rewrite ltb_key, leb_key. apply klt_kle. Qed.

Lemma ltb_trans x y z :
  (x <? y)%float = true -> (y <? z)%float = true -> (x <? z)%float = true.
Proof. rewrite !ltb_key. apply klt_trans. Qed.

Lemma leb_ltb_trans x y z :
  (x <=? y)%float = true -> (y <? z)%float = true -> (x <? z)%float = true.
Proof. rewrite !ltb_key, leb_key. apply kle_klt_trans. Qed.

Lemma ltb_leb_trans x y z :
  (x <? y)%float = true -> (y <=? z)%float = true -> (x <? z)%float = true.
Proof. rewrite !ltb_key, leb_key. apply klt_kle_trans. Qed.

Lemma ltb_irrefl x : (x <? x)%float = false.
Proof. rewrite ltb_key. apply klt_irrefl. Qed.

Lemma ltb_ltb_false x y : (x <? y)%float = true -> (y <? x)%float = false.
Proof. intros H. apply leb_ltb_false, ltb_leb, H. Qed.

(** Python's [x == y] on floats (it holds of [0.0] and [-0.0]) leaves
    every comparison with a third number unchanged. *)
Lemma eqb_ltb_l x y z :
  (x =? y)%float = true -> (x <? z)%float = (y <? z)%float.
Proof. rewrite eqb_key, !ltb_key. apply keq_klt_l. Qed.

Lemma eqb_ltb_r x y z :
  (x =? y)%float = true -> (z <? x)%float = (z <? y)%float.
Proof. rewrite eqb_key, !ltb_key. apply keq_klt_r. Qed.

Lemma eqb_leb_l x y z :
  (x =? y)%float = true -> (x <=? z)%float = (y <=? z)%float.
Proof. rewrite eqb_key, !leb_key. apply keq_kle_l. Qed.

(** NaN is the number without a key; it fails every comparison, and two
    numbers that are not NaN are comparable. *)

Lemma keq_refl a : keq (Some a) (Some a) = true.
Proof. destruct a as [[a1 a2] a3]. key_order. Qed.

Lemma kle_false_klt a b :
  kle (Some a) (Some b) = false -> klt (Some b) (Some a) = true.
Proof.
  destruct a as [[a1 a2] a3], b as [[b1 b2] b3]. intros H. key_order.
Qed.

Lemma klt_false_kle a b :
  klt (Some a) (Some b) = false -> kle (Some b) (Some a) = true.
Proof.
  destruct a as [[a1 a2] a3], b as [[b1 b2] b3]. intros H. key_order.
Qed.

Lemma is_nan_key x : is_nan x = true <-> fkey x = None.
Proof.
  unfold is_nan. rewrite eqb_key. destruct (fkey x) as [a|].
  - rewrite keq_refl. split; discriminate.
  - split; reflexivity.
Qed.

Lemma is_nan_false_key x : is_nan x = false -> exists a, fkey x = Some a.
Proof.
  intros H. destruct (fkey x) as [a|] eqn:E; [eauto|].
  apply is_nan_key in E. congruence.
Qed.

Lemma nan_ltb_l x y : is_nan x = true -> (x <? y)%float = false.
Proof. intros H. apply is_nan_key in H. rewrite ltb_key, H. reflexivity. Qed.

Lemma nan_ltb_r x y : is_nan x = true -> (y <? x)%float = false.
Proof.
  intros H. apply is_nan_key in H. rewrite ltb_key, H.
  destruct (fkey y); reflexivity.
Qed.

Lemma nan_leb_l x y : is_nan x = true -> (x <=? y)%float = false.
Proof. intros H. apply is_nan_key in H. rewrite leb_key, H. reflexivity. Qed.

Lemma nan_leb_r x y : is_nan x = true -> (y <=? x)%float = false.
Proof.
  intros H. apply is_nan_key in H. rewrite leb_key, H.
  destruct (fkey y); reflexivity.
Qed.

Lemma leb_false_ltb x y :
  is_nan x = false -> is_nan y = false ->
  (x <=? y)%float = false -> (y <? x)%float = true.
Proof.
  intros Hx Hy. rewrite leb_key, ltb_key.
  destruct (is_nan_false_key x Hx) as [a ->].
  destruct (is_nan_false_key y Hy) as [b ->].
  apply kle_false_klt.
Qed.

Lemma ltb_false_leb x y :
  is_nan x = false -> is_nan y = false ->
  (x <? y)%float = false -> (y <=? x)%float = true.
Proof.
  intros Hx Hy. rewrite leb_key, ltb_key.
  destruct (is_nan_false_key x Hx) as [a ->].
  destruct (is_nan_false_key y Hy) as [b ->].
  apply klt_false_kle.
Qed.

Lemma leb_trans x y z :
  (x <=? y)%float = true -> (y <=? z)%float = true -> (x <=? z)%float = true.
Proof.
  rewrite !leb_key. generalize (fkey x) (fkey y) (fkey z).
  intros a b c H1 H2. key_order.
Qed.

End FloatOrderFacts.

(** ** The classifier *)

Import FloatOrderFacts.

Section ClassifierFacts.

Variable table : dict (float * float).

Lemma check_status_unconfigured param value :
  get table param = None ->
  check_status table param value = Raise (KeyError param).
Proof. intros E. unfold check_status, subscript. rewrite E. reflexivity. Qed.

Lemma check_status_ammonia low high value :
  get table "Ammonia" = Some (low, high) ->
  check_status table "Ammonia" value =
  Ok (if (value <=? high)%float then Safe
      else if (value <=? 0.1)%float then Risky else Unsafe).
Proof.
  intros E. unfold check_status, subscript. rewrite E.
  cbn [bind String.eqb Ascii.eqb Bool.eqb].
  destruct (value <=? high)%float, (value <=? 0.1)%float; reflexivity.
Qed.

Lemma check_status_other param low high value :
  get table param = Some (low, high) ->
  param <> "Ammonia" ->
  check_status table param value =
  Ok (if (value <? low)%float then Low
      else if (high <? value)%float then High else Safe).
Proof.
  intros E N. unfold check_status, subscript. rewrite E. cbn [bind].
  apply String.eqb_neq in N. rewrite N.
  destruct (value <? low)%float, (high <? value)%float; reflexivity.
Qed.

(** [check_status] raises exactly on the parameters the table lacks. *)
Lemma check_status_Ok_iff param value :
  (exists s, check_status table param value = Ok s) <->
  get table param <> None.
Proof.
  split.
  - intros [s E] N. rewrite (check_status_unconfigured _ value N) in E.
    discriminate.
  - intros N. destruct (get table param) as [[low high]|] eqn:E;
      [|contradiction].
    destruct (String.eqb_spec param "Ammonia") as [->|NA].
    + rewrite (check_status_ammonia _ _ value E). eauto.
    + rewrite (check_status_other _ _ _ value E NA). eauto.
Qed.

End ClassifierFacts.

(** The boundary values of the Ammonia rule. *)
Example ammonia_boundaries :
  map (check_status safe_ranges "Ammonia")
    [0.05; 0.0500001; 0.1; 0.1000001]%float =
  [Ok Safe; Ok Risky; Ok Risky; Ok Unsafe].
Proof. reflexivity. Qed.

(** C1. For Ammonia, [check_status] returns Safe for every value
    [v <= 0.05], Risky for every value with [0.05 < v <= 0.1] and Unsafe for
    every value [v > 0.1]. The second threshold 0.1 is a constant of the
    classifier: with any table, whatever bounds it gives to Ammonia, a value
    above the upper bound is Risky exactly when it is at most 0.1. *)
Theorem ammonia_three_tiers (v : float) :
  ((v <=? 0.05)%float = true ->
   check_status safe_ranges "Ammonia" v = Ok Safe) /\
  ((0.05 <? v)%float = true -> (v <=? 0.1)%float = true ->
   check_status safe_ranges "Ammonia" v = Ok Risky) /\
  ((0.1 <? v)%float = true ->
   check_status safe_ranges "Ammonia" v = Ok Unsafe) /\
  (forall table low high,
      get table "Ammonia" = Some (low, high) ->
      (v <=? high)%float = false ->
      check_status table "Ammonia" v =
      Ok (if (v <=? 0.1)%float then Risky else Unsafe)).
Proof.
  assert (E : get safe_ranges "Ammonia" = Some (0, 0.05)%float)
    by reflexivity.
  repeat split.
  - intros H. rewrite (check_status_ammonia _ _ _ v E), H. reflexivity.
  - intros H1 H2. rewrite (check_status_ammonia _ _ _ v E).
    rewrite (ltb_leb_false _ _ H1), H2. reflexivity.
  - intros H. rewrite (check_status_ammonia _ _ _ v E).
    rewrite (ltb_leb_false _ _ H).
    rewrite (ltb_leb_false _ _ (ltb_trans 0.05 0.1 v eq_refl H)).
    reflexivity.
  - intros table low high Et H. rewrite (check_status_ammonia _ _ _ v Et), H.
    reflexivity.
Qed.

Lemma ammonia_three_tiers_witness :
  (0.05 <? 0.07)%float = true /\ (0.07 <=? 0.1)%float = true /\
  check_status safe_ranges "Ammonia" 0.07 = Ok Risky.
Proof.
  split; [reflexivity|]. split; [reflexivity|].
  apply (proj1 (proj2 (ammonia_three_tiers 0.07))); reflexivity.
Defined.

Lemma two_sided_configured p low high :
  In (p, (low, high)) two_sided ->
  get safe_ranges p = Some (low, high) /\ p <> "Ammonia" /\
  (low <? high)%float = true.
Proof.
  unfold two_sided. cbn [In].
  intros [E|[E|[E|[]]]]; injection E as <- <- <-;
    (split; [reflexivity|split; [discriminate|reflexivity]]).
Qed.

(** C2. For Temperature, Dissolved Oxygen and pH, whose configured bounds
    [(low, high)] are (25, 30), (5, 10) and (6.5, 8.5), [check_status]
    returns Low when [v < low], High when [v > high] and Safe when
    [low <= v <= high]; the values [low] and [high] themselves are Safe. *)
Theorem two_sided_tiers_inclusive (p : string) (low high v : float) :
  In (p, (low, high)) two_sided ->
  get safe_ranges p = Some (low, high) /\
  ((v <? low)%float = true -> check_status safe_ranges p v = Ok Low) /\
  ((high <? v)%float = true -> check_status safe_ranges p v = Ok High) /\
  ((low <=? v)%float = true -> (v <=? high)%float = true ->
   check_status safe_ranges p v = Ok Safe) /\
  check_status safe_ranges p low = Ok Safe /\
  check_status safe_ranges p high = Ok Safe.
Proof.
  intros I. destruct (two_sided_configured _ _ _ I) as (E & NA & LH).
  split; [exact E|]. repeat split.
  - intros H. rewrite (check_status_other _ _ _ _ v E NA), H. reflexivity.
  - intros H. rewrite (check_status_other _ _ _ _ v E NA), H.
    rewrite (ltb_ltb_false _ _ (ltb_trans _ _ _ LH H)). reflexivity.
  - intros H1 H2. rewrite (check_status_other _ _ _ _ v E NA).
    rewrite (leb_ltb_false _ _ H1), (leb_ltb_false _ _ H2). reflexivity.
  - rewrite (check_status_other _ _ _ _ low E NA).
    rewrite (ltb_irrefl low), (ltb_ltb_false _ _ LH). reflexivity.
  - rewrite (check_status_other _ _ _ _ high E NA).
    rewrite (ltb_ltb_false _ _ LH), (ltb_irrefl high). reflexivity.
Qed.

Lemma two_sided_tiers_inclusive_witness :
  In ("pH", (6.5, 8.5)%float) two_sided /\
  check_status safe_ranges "pH" 6.5 = Ok Safe.
Proof.
  assert (I : In ("pH", (6.5, 8.5)%float) two_sided) by (cbn; auto).
  split; [exact I|].
  exact (proj1 (proj2 (proj2 (proj2 (proj2
           (two_sided_tiers_inclusive "pH" 6.5 8.5 7 I)))))).
Defined.

(** C9. The status labels are divided between the parameters.
    [check_status] never returns Low or High for Ammonia, and every value
    [v <= 0.05], negative values included, is Safe; for Temperature,
    Dissolved Oxygen and pH it never returns Risky or Unsafe. *)
Theorem status_vocabulary_partition (v : float) :
  (check_status safe_ranges "Ammonia" v <> Ok Low /\
   check_status safe_ranges "Ammonia" v <> Ok High) /\
  ((v <=? 0.05)%float = true ->
   check_status safe_ranges "Ammonia" v = Ok Safe) /\
  ((v <? 0)%float = true ->
   check_status safe_ranges "Ammonia" v = Ok Safe) /\
  (forall p, In p (map fst two_sided) ->
     check_status safe_ranges p v <> Ok Risky /\
     check_status safe_ranges p v <> Ok Unsafe).
Proof.
  assert (E : get safe_ranges "Ammonia" = Some (0, 0.05)%float)
    by reflexivity.
  pose proof (check_status_ammonia _ _ _ v E) as A.
  repeat split.
  - rewrite A. destruct (v <=? 0.05)%float, (v <=? 0.1)%float; discriminate.
  - rewrite A. destruct (v <=? 0.05)%float, (v <=? 0.1)%float; discriminate.
  - intros H. rewrite A, H. reflexivity.
  - intros H. rewrite A.
    rewrite (ltb_leb _ _ (ltb_trans v 0 0.05 H eq_refl)). reflexivity.
  - apply in_map_iff in H. destruct H as ([q [low high]] & <- & I).
    destruct (two_sided_configured _ _ _ I) as (Eq & NA & _).
    cbn [fst]. rewrite (check_status_other _ _ _ _ v Eq NA).
    destruct (v <? low)%float, (high <? v)%float; discriminate.
  - apply in_map_iff in H. destruct H as ([q [low high]] & <- & I).
    destruct (two_sided_configured _ _ _ I) as (Eq & NA & _).
    cbn [fst]. rewrite (check_status_other _ _ _ _ v Eq NA).
    destruct (v <? low)%float, (high <? v)%float; discriminate.
Qed.

Lemma status_vocabulary_partition_witness :
  (-3 <? 0)%float = true /\
  In "Temperature" (map fst two_sided) /\
  check_status safe_ranges "Ammonia" (-3) = Ok Safe /\
  check_status safe_ranges "Temperature" (-3) <> Ok Risky.
Proof.
  split; [reflexivity|]. split; [cbn; auto|]. split.
  - apply (proj1 (proj2 (proj2 (status_vocabulary_partition (-3))))).
    reflexivity.
  - apply (proj2 (proj2 (proj2 (status_vocabulary_partition (-3))))).
    cbn; auto.
Defined.

(** ** Dictionaries *)

Section DictFacts.

Context {V : Type}.
Implicit Types (d : dict V) (k : string) (v : V).

Lemma get_None_iff d k : get d k = None <-> ~ In k (keys d).
Proof.
  induction d as [|[k' v'] d IH]; cbn.
  - tauto.
  - destruct (String.eqb_spec k k') as [->|N].
    + split; [discriminate|]. intros H. exfalso. auto.
    + rewrite IH. split; intros H; [intros [E|I]|]; auto.
Qed.

Lemma get_Some_In d k v : get d k = Some v -> In (k, v) d.
Proof.
  induction d as [|[k' v'] d IH]; cbn; [discriminate|].
  destruct (String.eqb_spec k k') as [->|N].
  - intros [= ->]. auto.
  - auto.
Qed.

Lemma In_get d k v : wf d -> In (k, v) d -> get d k = Some v.
Proof.
  unfold wf. induction d as [|[k' v'] d IH]; cbn; [tauto|].
  intros W [E|I].
  - injection E as -> ->. rewrite String.eqb_refl. reflexivity.
  - apply NoDup_cons_iff in W. destruct W as [N W].
    destruct (String.eqb_spec k k') as [->|_]; [|auto].
    exfalso. apply N. change k' with (fst (k', v)). apply in_map, I.
Qed.

Lemma get_In_iff d k v : wf d -> get d k = Some v <-> In (k, v) d.
Proof. intros W. split; [apply get_Some_In|apply In_get, W]. Qed.

Lemma set_fresh d k v : ~ In k (keys d) -> set d k v = d ++ [(k, v)].
Proof.
  induction d as [|[k' v'] d IH]; cbn; [reflexivity|].
  intros N. destruct (String.eqb_spec k k') as [->|_].
  - exfalso. auto.
  - rewrite IH; auto.
Qed.

Lemma wf_Permutation d d' : Permutation d d' -> wf d -> wf d'.
Proof.
  unfold wf, keys. intros P. apply Permutation_NoDup, Permutation_map, P.
Qed.

(** Two orders of the same items are equal dictionaries. *)
Lemma equiv_Permutation d d' : wf d -> Permutation d d' -> equiv d d'.
Proof.
  intros W P k. pose proof (wf_Permutation _ _ P W) as W'.
  destruct (get d k) as [v|] eqn:E.
  - symmetry. apply In_get; [exact W'|].
    apply (Permutation_in _ P), get_Some_In, E.
  - destruct (get d' k) as [v'|] eqn:E'; [|reflexivity].
    apply get_Some_In in E'. apply (Permutation_in _ (Permutation_sym P)) in E'.
    apply (In_get _ _ _ W) in E'. congruence.
Qed.

End DictFacts.

(** ** Counting the values of a column *)

Lemma Status_eqb_spec s t : reflect (s = t) (Status_eqb s t).
Proof. destruct s, t; constructor; congruence. Qed.

Lemma Status_eqb_refl s : Status_eqb s s = true.
Proof. destruct s; reflexivity. Qed.

Section PandasFacts.

Implicit Types (s t : Status) (rows : list (Status * nat)).

Lemma count_of_count_add s t rows :
  count_of s (count_add t rows) =
  count_of s rows + (if Status_eqb s t then 1 else 0).
Proof.
  induction rows as [|[u n] rows IH]; cbn.
  - destruct (Status_eqb s t); reflexivity.
  - destruct (Status_eqb_spec t u) as [->|N]; cbn.
    + destruct (Status_eqb_spec s u); lia.
    + destruct (Status_eqb_spec s u) as [->|_]; [|exact IH].
      destruct (Status_eqb_spec u t); [congruence|lia].
Qed.

Lemma in_keys_count_add s t rows :
  In s (map fst (count_add t rows)) <-> s = t \/ In s (map fst rows).
Proof.
  induction rows as [|[u n] rows IH]; cbn.
  - intuition congruence.
  - destruct (Status_eqb_spec t u) as [->|N]; cbn; [|rewrite IH];
      intuition congruence.
Qed.

Lemma rows_wf_count_add t rows : rows_wf rows -> rows_wf (count_add t rows).
Proof.
  unfold rows_wf. induction rows as [|[u n] rows IH]; cbn.
  - intros _. split; repeat constructor. intros [].
  - intros [D P]. apply NoDup_cons_iff in D. destruct D as [N D].
    apply Forall_cons_iff in P. destruct P as [Pu P].
    destruct (Status_eqb_spec t u) as [->|Ntu]; cbn.
    + split; constructor; cbn in *; auto; lia.
    + destruct (IH (conj D P)) as [D' P'].
      split; constructor; auto.
      rewrite in_keys_count_add. intros [E|I]; [congruence|auto].
Qed.

Lemma tally_from_spec col rows :
  rows_wf rows ->
  rows_wf (fold_left (fun acc s => count_add s acc) col rows) /\
  forall s,
    count_of s (fold_left (fun acc s => count_add s acc) col rows) =
    count_of s rows + occurrences s col.
Proof.
  revert rows. unfold occurrences.
  induction col as [|t col IH]; intros rows W; cbn [fold_left].
  - split; [exact W|]. intros s. cbn. lia.
  - destruct (IH _ (rows_wf_count_add t rows W)) as [W' C].
    split; [exact W'|]. intros s.
    rewrite C, count_of_count_add. cbn [filter].
    destruct (Status_eqb s t); cbn [List.length]; lia.
Qed.

Lemma insert_desc_Permutation x rows :
  Permutation (insert_desc x rows) (x :: rows).
Proof.
  induction rows as [|y rows IH]; cbn; [reflexivity|].
  destruct (Nat.leb (snd y) (snd x)); [reflexivity|].
  rewrite IH. apply perm_swap.
Qed.

Lemma sort_desc_Permutation rows : Permutation (sort_desc rows) rows.
Proof.
  induction rows as [|x rows IH]; cbn; [reflexivity|].
  rewrite insert_desc_Permutation, IH. reflexivity.
Qed.

Lemma rows_wf_Permutation rows rows' :
  Permutation rows rows' -> rows_wf rows -> rows_wf rows'.
Proof.
  intros P [D F]. split.
  - exact (Permutation_NoDup (Permutation_map fst P) D).
  - exact (Permutation_Forall P F).
Qed.

(** In well-formed rows, [count_of] reads the row of the value. *)
Lemma count_of_In s n rows :
  NoDup (map fst rows) -> In (s, n) rows -> count_of s rows = n.
Proof.
  induction rows as [|[u m] rows IH]; cbn; [tauto|].
  intros D [E|I].
  - injection E as -> ->. rewrite Status_eqb_refl. reflexivity.
  - apply NoDup_cons_iff in D. destruct D as [N D].
    destruct (Status_eqb_spec s u) as [->|_]; [|auto].
    exfalso. apply N. change u with (fst (u, n)). apply in_map, I.
Qed.

Lemma count_of_absent s rows : ~ In s (map fst rows) -> count_of s rows = 0.
Proof.
  induction rows as [|[u m] rows IH]; cbn; [reflexivity|].
  intros N. destruct (Status_eqb_spec s u) as [->|_]; [exfalso|]; auto.
Qed.

Lemma in_keys_row s rows : In s (map fst rows) -> exists n, In (s, n) rows.
Proof.
  intros I. apply in_map_iff in I. destruct I as ([u n] & <- & I). eauto.
Qed.

Lemma count_of_Permutation s rows rows' :
  NoDup (map fst rows) -> Permutation rows rows' ->
  count_of s rows = count_of s rows'.
Proof.
  intros D P.
  pose proof (Permutation_NoDup (Permutation_map fst P) D) as D'.
  destruct (in_dec (fun a b => reflect_dec _ _ (Status_eqb_spec a b))
              s (map fst rows)) as [I|N].
  - destruct (in_keys_row _ _ I) as [n In_n].
    rewrite (count_of_In _ _ _ D In_n).
    symmetry. apply count_of_In; [exact D'|].
    apply (Permutation_in _ P In_n).
  - rewrite (count_of_absent _ _ N). symmetry. apply count_of_absent.
    intros I. apply N.
    apply (Permutation_in _ (Permutation_sym (Permutation_map fst P)) I).
Qed.

(** A well-formed table has a row for [s] exactly when its count is not
    0, and the row holds the count. *)
Lemma rows_wf_In s n rows :
  rows_wf rows -> In (s, n) rows <-> count_of s rows = n /\ 0 < n.
Proof.
  intros [D F]. split.
  - intros I. split; [apply count_of_In; assumption|].
    rewrite Forall_forall in F. apply (F _ I).
  - intros [E P].
    destruct (in_dec (fun a b => reflect_dec _ _ (Status_eqb_spec a b))
                s (map fst rows)) as [I|N].
    + destruct (in_keys_row _ _ I) as [m Im].
      rewrite (count_of_In _ _ _ D Im) in E. subst. exact Im.
    + rewrite (count_of_absent _ _ N) in E. lia.
Qed.

(** [value_counts] has one row per value that occurs in the column, with
    the number of its occurrences. *)
Lemma value_counts_spec col :
  rows_wf (value_counts col) /\
  forall s, count_of s (value_counts col) = occurrences s col.
Proof.
  unfold value_counts, tally.
  assert (W0 : rows_wf []) by (split; constructor).
  destruct (tally_from_spec col [] W0) as [W C].
  split.
  - apply (rows_wf_Permutation _ _
             (Permutation_sym (sort_desc_Permutation _))), W.
  - intros s. destruct W as [D _].
    rewrite <- (count_of_Permutation s _ _ D
                  (Permutation_sym (sort_desc_Permutation _))).
    apply C.
Qed.

End PandasFacts.

(** ** The evaluator *)

Section EvaluatorFacts.

Variable table : dict (float * float).

#[local] Abbreviation classified := (classified table).

Lemma classify_items_spec its l :
  classify_items table its = Ok l -> Forall2 classified its l.
Proof.
  revert l. induction its as [|[p v] its IH]; cbn; intros l.
  - intros [= <-]. constructor.
  - destruct (check_status table p v) as [s|e] eqn:E; cbn; [|discriminate].
    destruct (classify_items table its) as [tl|e]; cbn; [|discriminate].
    intros [= <-]. constructor; [split; [reflexivity|exact E]|auto].
Qed.

Lemma classified_keys its l : Forall2 classified its l -> keys l = keys its.
Proof.
  unfold keys. induction 1 as [|kv ks its l [E _] _ IH]; cbn; congruence.
Qed.

Lemma classify_items_configured its l :
  classify_items table its = Ok l -> configured table its.
Proof.
  intros E p I. apply classify_items_spec in E.
  induction E as [|kv ks its l [_ C] _ IH]; cbn in I; [contradiction|].
  destruct I as [<-|I]; [|auto].
  apply check_status_Ok_iff with (value := snd kv). eauto.
Qed.

Lemma configured_classify_items its :
  configured table its -> exists l, classify_items table its = Ok l.
Proof.
  unfold configured. induction its as [|[p v] its IH]; cbn; intros C.
  - eauto.
  - destruct (proj2 (check_status_Ok_iff table p v)) as [s ->]; [auto|].
    destruct IH as [tl ->]; [auto|]. cbn. eauto.
Qed.

(** The first parameter without a row ends the comprehension. *)
Lemma status_comprehension_raises its acc :
  (exists p, In p (keys its) /\ get table p = None) ->
  exists p, In p (keys its) /\ get table p = None /\
            status_comprehension table its acc = Raise (KeyError p).
Proof.
  revert acc. induction its as [|[p v] its IH]; cbn; intros acc (q & I & N).
  - contradiction.
  - destruct (get table p) as [range|] eqn:E.
    + destruct (proj2 (check_status_Ok_iff table p v)) as [s ->];
        [congruence|].
      destruct I as [<-|I]; [congruence|].
      destruct (IH (set acc p s)) as (q' & I' & N' & R); [eauto|].
      exists q'. cbn. auto.
    + exists p. rewrite (check_status_unconfigured _ _ v E). auto.
Qed.

(** On a dictionary, the comprehension appends the classified items. *)
Lemma status_comprehension_fresh its acc :
  NoDup (keys acc ++ keys its) ->
  status_comprehension table its acc =
  (l <- classify_items table its ;; Ok (acc ++ l)).
Proof.
  revert acc. induction its as [|[p v] its IH]; cbn; intros acc D.
  - rewrite app_nil_r. reflexivity.
  - destruct (check_status table p v) as [s|e]; cbn; [|reflexivity].
    rewrite set_fresh, IH.
    + destruct (classify_items table its); cbn; [|reflexivity].
      rewrite <- app_assoc. reflexivity.
    + unfold keys in *. rewrite map_app, <- app_assoc. exact D.
    + apply NoDup_remove_2 in D. intros I. apply D, in_or_app. auto.
Qed.

Lemma ideal_configured proj params :
  (forall p, In p params -> get table p <> None) ->
  exists l, ideal table proj params = Ok l.
Proof.
  induction params as [|p params IH]; cbn; intros C; [eauto|].
  unfold subscript. destruct (get table p) as [range|] eqn:E.
  - destruct IH as [l ->]; [auto|]. cbn. eauto.
  - exfalso. apply (C p); auto.
Qed.

(** [get] on the classified items. *)
Lemma get_classified its l k :
  Forall2 classified its l ->
  get l k =
  match get its k with
  | Some v => match check_status table k v with
              | Ok s => Some s
              | Raise _ => None
              end
  | None => None
  end.
Proof.
  induction 1 as [|[p v] [p' s] its l [E C] _ IH]; cbn in *; [reflexivity|].
  subst p'. destruct (String.eqb_spec k p) as [->|_]; [|exact IH].
  rewrite C. reflexivity.
Qed.

(** The occurrences of a status among the classified items. *)
Lemma occurrences_classified s its l :
  Forall2 classified its l ->
  occurrences s (values l) = classified_as table s its.
Proof.
  unfold occurrences, classified_as, values, items.
  induction 1 as [|[p v] [p' t] its l [E C] _ IH]; cbn in *; [reflexivity|].
  rewrite C. destruct (Status_eqb s t); cbn; congruence.
Qed.

Lemma classified_as_Permutation s its its' :
  Permutation its its' ->
  classified_as table s its = classified_as table s its'.
Proof.
  unfold classified_as, items.
  induction 1 as [|kv its its' _ IH|kv kv' its|its its' its'' _ IH1 _ IH2];
    cbn; try congruence.
  - destruct (check_status table (fst kv) (snd kv)) as [t|]; [|exact IH].
    destruct (Status_eqb s t); cbn; congruence.
  - destruct (check_status table (fst kv) (snd kv)) as [t|],
      (check_status table (fst kv') (snd kv')) as [t'|];
      try destruct (Status_eqb s t); try destruct (Status_eqb s t');
      reflexivity.
Qed.

(** Reordered items have reordered classifications. *)
Lemma classified_Permutation its its' l l' :
  Forall2 classified its l -> Forall2 classified its' l' ->
  Permutation its its' -> Permutation l l'.
Proof.
  pose (f := fun kv : string * float =>
               (fst kv, match check_status table (fst kv) (snd kv) with
                        | Ok s => s
                        | Raise _ => Safe
                        end)).
  assert (M : forall its l, Forall2 classified its l -> l = map f its).
  { induction 1 as [|kv [p s] ? ? [E C] _ IH]; cbn in *; [reflexivity|].
    subst. f_equal. unfold f. rewrite C. reflexivity. }
  intros F F' P. rewrite (M _ _ F), (M _ _ F').
  apply Permutation_map, P.
Qed.

(** What [evaluate] returns on a dictionary whose parameters all have a
    row. *)
Lemma evaluate_configured data :
  wf data -> configured table data ->
  exists l imin imax,
    classify_items table (items data) = Ok l /\
    evaluate table data =
    Ok {| status := l;
          df_eval := {| col_Parameter := keys data;
                        col_Value := values data;
                        col_Status := values l;
                        col_Ideal_Min := imin;
                        col_Ideal_Max := imax |};
          status_counts := value_counts (values l);
          verdict := forallb (fun s => Status_eqb s Safe) (values l) |}.
Proof.
  intros W C. unfold evaluate.
  destruct (configured_classify_items _ C) as [l E].
  destruct (ideal_configured fst (keys data) C) as [imin Emin].
  destruct (ideal_configured snd (keys data) C) as [imax Emax].
  exists l, imin, imax. split; [exact E|].
  rewrite status_comprehension_fresh by exact W.
  unfold items in *. rewrite E. cbn. rewrite Emin, Emax. reflexivity.
Qed.

(** [evaluate] succeeds exactly on the readings whose parameters all have
    a row. *)
Lemma evaluate_Ok_configured data r :
  evaluate table data = Ok r -> configured table data.
Proof.
  intros E p I N.
  destruct (status_comprehension_raises (items data) []
              (ex_intro _ p (conj I N))) as (q & _ & _ & R).
  unfold evaluate in E. rewrite R in E. discriminate.
Qed.

(** The derived fields of a result are computed from its statuses. *)
Lemma evaluate_fields data r :
  evaluate table data = Ok r ->
  status_counts r = value_counts (values (status r)) /\
  verdict r = forallb (fun s => Status_eqb s Safe) (values (status r)) /\
  col_Status (df_eval r) = values (status r) /\
  col_Parameter (df_eval r) = keys data.
Proof.
  unfold evaluate.
  destruct (status_comprehension table (items data) []); cbn; [|discriminate].
  destruct (ideal table fst (keys data)); cbn; [|discriminate].
  destruct (ideal table snd (keys data)); cbn; [|discriminate].
  intros [= <-]. cbn. auto.
Qed.

Lemma check_status_value_eq p v v' :
  value_eq v v' -> check_status table p v = check_status table p v'.
Proof.
  intros [<-|E]; [reflexivity|].
  unfold check_status. destruct (subscript table p) as [[low high]|e];
    cbn [bind]; [|reflexivity].
  rewrite (eqb_leb_l v v' high E), (eqb_leb_l v v' 0.1 E).
  rewrite (eqb_ltb_l v v' low E), (eqb_ltb_r v v' high E).
  reflexivity.
Qed.

Lemma same_reading_keys data data' :
  same_reading data data' -> keys data = keys data'.
Proof.
  unfold keys. induction 1 as [|kv kv' ? ? [E _] _ IH]; cbn; congruence.
Qed.

Lemma status_comprehension_same_reading its its' acc :
  same_reading its its' ->
  status_comprehension table its acc = status_comprehension table its' acc.
Proof.
  intros S. revert acc.
  induction S as [|[p v] [p' v'] its its' [E Q] _ IH]; intros acc;
    cbn in *; [reflexivity|].
  subst p'. rewrite (check_status_value_eq p v v' Q).
  destruct (check_status table p v'); cbn; [apply IH|reflexivity].
Qed.

(** Equal readings have the same outcome. *)
Lemma evaluate_same_reading data data' :
  same_reading data data' ->
  result_map outcome (evaluate table data) =
  result_map outcome (evaluate table data').
Proof.
  intros S. unfold evaluate, items.
  rewrite (status_comprehension_same_reading _ _ [] S).
  rewrite (same_reading_keys _ _ S).
  destruct (status_comprehension table data' []); cbn; [|reflexivity].
  destruct (ideal table fst (keys data')); cbn; [|reflexivity].
  destruct (ideal table snd (keys data')); reflexivity.
Qed.

End EvaluatorFacts.

(** ** The evaluation of [safe_ranges] *)

Lemma reading_wf {V : Type} (temp do ammonia ph : V) :
  wf (reading temp do ammonia ph).
Proof.
  unfold wf, reading. cbn.
  repeat constructor; cbn; intuition discriminate.
Qed.

Lemma reading_configured (temp do ammonia ph : float) :
  configured safe_ranges (reading temp do ammonia ph).
Proof.
  intros p. cbn. intros [<-|[<-|[<-|[<-|[]]]]]; discriminate.
Qed.

(** The three readings evaluated. *)
Example evaluate_scenarios :
  map (fun data => result_map (fun r => (status r, verdict r))
                     (evaluate safe_ranges data))
    [reading_healthy; reading_cold; reading_ammonia] =
  [ Ok (reading Safe Safe Safe Safe, true);
    Ok (reading Low Safe Safe Safe, false);
    Ok (reading Safe Safe Unsafe Safe, false) ].
Proof. reflexivity. Qed.

(** C3. The overall verdict of an evaluation is true if and only if every
    status of its per-parameter mapping is Safe; one status that is not
    Safe makes it false. *)
Theorem verdict_iff_all_safe (data : dict float) (r : EvaluationResult) :
  evaluate safe_ranges data = Ok r ->
  (verdict r = true <->
   forall p s, In (p, s) (items (status r)) -> s = Safe) /\
  (forall p s, In (p, s) (items (status r)) -> s <> Safe ->
               verdict r = false).
Proof.
  intros E. destruct (evaluate_fields _ _ _ E) as (_ & -> & _).
  unfold values, items. rewrite forallb_forall.
  assert (A : (forall s, In s (map snd (status r)) ->
                         Status_eqb s Safe = true) <->
              (forall p s, In (p, s) (status r) -> s = Safe)).
  { split.
    - intros H p s I. apply (reflect_iff _ _ (Status_eqb_spec s Safe)).
      apply H. change s with (snd (p, s)). apply in_map, I.
    - intros H s I. apply in_map_iff in I. destruct I as ([p t] & <- & I).
      apply (reflect_iff _ _ (Status_eqb_spec t Safe)). apply (H p), I. }
  split; [exact A|].
  intros p s I N. apply not_true_is_false. intros T.
  rewrite <- forallb_forall in A. apply N, (proj1 A T p s I).
Qed.

Lemma verdict_iff_all_safe_witness :
  exists r, evaluate safe_ranges reading_cold = Ok r /\ verdict r = false.
Proof.
  eexists. split; [reflexivity|].
  refine (proj2 (verdict_iff_all_safe reading_cold _ eq_refl)
            "Temperature" Low _ _).
  - cbn. auto.
  - discriminate.
Defined.

(** C4, as amended. When a reading has a parameter without a row in the
    range table, the evaluation raises the built-in [KeyError] of such a
    parameter, as the subscript of line 147 raises it, and returns no
    result: no status mapping, no counts and no verdict, also for the
    other parameters. *)
Theorem unconfigured_parameter_raises (data : dict float) :
  (exists p, In p (keys data) /\ get safe_ranges p = None) ->
  exists p, In p (keys data) /\ get safe_ranges p = None /\
            evaluate safe_ranges data = Raise (KeyError p) /\
            forall r, evaluate safe_ranges data <> Ok r.
Proof.
  intros H.
  destruct (status_comprehension_raises safe_ranges (items data) [] H)
    as (p & I & N & R).
  assert (E : evaluate safe_ranges data = Raise (KeyError p))
    by (unfold evaluate; rewrite R; reflexivity).
  exists p. repeat split; try assumption.
  intros r. rewrite E. discriminate.
Qed.

Lemma unconfigured_parameter_raises_witness :
  exists p, evaluate safe_ranges reading_unconfigured = Raise (KeyError p).
Proof.
  assert (H : exists p, In p (keys reading_unconfigured) /\
                        get safe_ranges p = None).
  { exists "Salinity". split; [cbn; auto|reflexivity]. }
  destruct (unconfigured_parameter_raises reading_unconfigured H)
    as (p & _ & _ & R & _).
  exists p. exact R.
Defined.

(** C4 as first stated does not hold: on a reading with the parameter
    [Salinity], which has no row, the exception that the evaluation
    raises is a [KeyError], not a [ConfigurationError]. *)
Lemma evaluate_error_not_ConfigurationError :
  (exists p, In p (keys reading_unconfigured) /\ get safe_ranges p = None) /\
  ~ (exists e, evaluate safe_ranges reading_unconfigured = Raise e /\
               exn_name e = "ConfigurationError").
Proof.
  split.
  - exists "Salinity". split; [cbn; auto|reflexivity].
  - intros (e & E & N). destruct e as [key]. cbn in N. discriminate.
Qed.

(** C10. The evaluation of the empty reading succeeds: the status mapping
    and the counts are empty and the verdict is true. *)
Theorem evaluate_empty :
  evaluate safe_ranges [] =
  Ok {| status := [];
        df_eval := {| col_Parameter := []; col_Value := [];
                      col_Status := []; col_Ideal_Min := [];
                      col_Ideal_Max := [] |};
        status_counts := [];
        verdict := true |}.
Proof. reflexivity. Qed.

(** C5. For a reading whose parameters all have a row in the range table,
    the status mapping of the result has exactly the keys of the reading,
    each once and each with the status of its value: no key is added and
    none is left out. *)
Theorem status_one_per_parameter (data : dict float) :
  wf data -> configured safe_ranges data ->
  exists r,
    evaluate safe_ranges data = Ok r /\
    keys (status r) = keys data /\
    wf (status r) /\
    (forall p, In p (keys data) <-> exists s, get (status r) p = Some s) /\
    (forall p v, get data p = Some v ->
       exists s, check_status safe_ranges p v = Ok s /\
                 get (status r) p = Some s).
Proof.
  intros W C.
  destruct (evaluate_configured safe_ranges data W C)
    as (l & imin & imax & El & E).
  eexists. split; [exact E|]. cbn [status].
  pose proof (classify_items_spec _ _ _ El) as F.
  pose proof (classified_keys _ _ _ F) as K. unfold items in K.
  split; [exact K|]. split; [unfold wf; rewrite K; exact W|]. split.
  - intros p. rewrite <- K. split.
    + intros I. destruct (get l p) as [s|] eqn:G; [eauto|].
      apply get_None_iff in G. contradiction.
    + intros [s G].
      destruct (in_dec string_dec p (keys l)) as [I|N]; [exact I|].
      apply get_None_iff in N. congruence.
  - intros p v G. rewrite (get_classified _ _ _ p F). unfold items. rewrite G.
    destruct (proj2 (check_status_Ok_iff safe_ranges p v)) as [s ->]; [|eauto].
    apply C. destruct (in_dec string_dec p (keys data)) as [I|N]; [exact I|].
    apply get_None_iff in N. congruence.
Qed.

Lemma status_one_per_parameter_witness :
  exists r, evaluate safe_ranges reading_ammonia = Ok r /\
            keys (status r) = keys reading_ammonia.
Proof.
  destruct (status_one_per_parameter reading_ammonia
              (reading_wf _ _ _ _) (reading_configured _ _ _ _))
    as (r & E & K & _).
  exists r. split; assumption.
Defined.

(** C7. For a reading whose parameters all have a row in the range table,
    the counts of the result give, for each status, the number of
    parameters of the reading that are classified with it: the status has
    a row exactly when that number is not 0, and the row holds it. *)
Theorem status_counts_exact (data : dict float) :
  wf data -> configured safe_ranges data ->
  exists r,
    evaluate safe_ranges data = Ok r /\
    NoDup (map fst (status_counts r)) /\
    forall s,
      count_of s (status_counts r) = classified_as safe_ranges s data /\
      forall n, In (s, n) (status_counts r) <->
                n = classified_as safe_ranges s data /\ 0 < n.
Proof.
  intros W C.
  destruct (evaluate_configured safe_ranges data W C)
    as (l & imin & imax & El & E).
  eexists. split; [exact E|]. cbn [status_counts].
  pose proof (classify_items_spec _ _ _ El) as F.
  destruct (value_counts_spec (values l)) as [Wf Cnt].
  split; [exact (proj1 Wf)|]. intros s.
  pose proof (occurrences_classified safe_ranges s _ _ F) as O.
  unfold items in O.
  split; [rewrite Cnt; exact O|].
  intros n. rewrite (rows_wf_In s n _ Wf), Cnt, O.
  split; intros [H1 H2]; split; congruence.
Qed.

Lemma status_counts_exact_witness :
  exists r, evaluate safe_ranges reading_cold = Ok r /\
            count_of Safe (status_counts r) = 3 /\
            count_of Low (status_counts r) = 1.
Proof.
  destruct (status_counts_exact reading_cold
              (reading_wf _ _ _ _) (reading_configured _ _ _ _))
    as (r & E & _ & Cnt).
  exists r. split; [exact E|].
  split; [exact (proj1 (Cnt Safe))|exact (proj1 (Cnt Low))].
Defined.

(** C6. The evaluation of a reading and of any reordering of its keys
    agree: when one raises so does the other, and otherwise the two status
    mappings are equal dictionaries, the counts have the same rows and the
    verdicts are the same. Only the order of the rows can differ. *)
Theorem evaluate_order_independent (data data' : dict float) :
  wf data -> Permutation data data' ->
  (forall r, evaluate safe_ranges data = Ok r ->
     exists r', evaluate safe_ranges data' = Ok r' /\
       equiv (status r) (status r') /\
       (forall s, count_of s (status_counts r) =
                  count_of s (status_counts r')) /\
       (forall s n, In (s, n) (status_counts r) <->
                    In (s, n) (status_counts r')) /\
       verdict r = verdict r') /\
  (forall e, evaluate safe_ranges data = Raise e ->
     exists e', evaluate safe_ranges data' = Raise e').
Proof.
  intros W P. pose proof (wf_Permutation _ _ P W) as W'.
  assert (K : forall p, In p (keys data) <-> In p (keys data')).
  { intros p. unfold keys. split; apply Permutation_in;
      [|apply Permutation_sym]; apply Permutation_map, P. }
  split.
  - intros r E.
    assert (C : configured safe_ranges data)
      by exact (evaluate_Ok_configured _ _ _ E).
    assert (C' : configured safe_ranges data')
      by (intros p I; apply C, K, I).
    destruct (evaluate_configured safe_ranges data W C)
      as (l & imin & imax & El & E0).
    destruct (evaluate_configured safe_ranges data' W' C')
      as (l' & imin' & imax' & El' & E0').
    rewrite E0 in E. injection E as <-.
    eexists. split; [exact E0'|]. cbn [status status_counts verdict].
    pose proof (classify_items_spec _ _ _ El) as F.
    pose proof (classify_items_spec _ _ _ El') as F'.
    destruct (value_counts_spec (values l)) as [Wf Cnt].
    destruct (value_counts_spec (values l')) as [Wf' Cnt'].
    assert (Q : forall s, count_of s (value_counts (values l)) =
                          count_of s (value_counts (values l'))).
    { intros s. rewrite Cnt, Cnt'.
      rewrite (occurrences_classified safe_ranges s _ _ F).
      rewrite (occurrences_classified safe_ranges s _ _ F').
      apply classified_as_Permutation, P. }
    assert (Eqv : equiv l l').
    { intros k.
      rewrite (get_classified _ _ _ k F), (get_classified _ _ _ k F').
      unfold items. rewrite (equiv_Permutation _ _ W P k). reflexivity. }
    split; [exact Eqv|]. split; [exact Q|]. split.
    + intros s n. rewrite (rows_wf_In s n _ Wf), (rows_wf_In s n _ Wf'), Q.
      reflexivity.
    + pose proof (Permutation_map snd
                    (classified_Permutation safe_ranges _ _ _ _ F F' P)) as PV.
      apply eq_true_iff_eq. unfold values. rewrite !forallb_forall.
      split; intros H s I; apply H.
      * apply (Permutation_in _ (Permutation_sym PV) I).
      * apply (Permutation_in _ PV I).
  - intros e E.
    destruct (evaluate safe_ranges data') as [r'|e'] eqn:E'; [|eauto].
    exfalso.
    assert (C : configured safe_ranges data).
    { intros p I. apply (evaluate_Ok_configured _ _ _ E'), K, I. }
    destruct (evaluate_configured safe_ranges data W C)
      as (l & imin & imax & _ & E0).
    congruence.
Qed.

Lemma reading_cold_Permutation :
  Permutation reading_cold reading_cold_permuted.
Proof.
  unfold reading_cold, reading_cold_permuted, reading.
  apply (Permutation_cons_app
           [("pH", 7.2%float); ("Ammonia", 0.02%float)]
           [("Dissolved Oxygen", 7%float)]).
  apply (Permutation_cons_app
           [("pH", 7.2%float); ("Ammonia", 0.02%float)] []).
  apply perm_swap.
Defined.

Lemma evaluate_order_independent_witness :
  exists r r',
    evaluate safe_ranges reading_cold = Ok r /\
    evaluate safe_ranges reading_cold_permuted = Ok r' /\
    equiv (status r) (status r') /\ verdict r = verdict r'.
Proof.
  eexists.
  destruct (proj1 (evaluate_order_independent
                     reading_cold reading_cold_permuted
                     (reading_wf _ _ _ _) reading_cold_Permutation)
              _ eq_refl)
    as (r' & E' & Eqv & _ & _ & V).
  exists r'. repeat split; assumption.
Defined.

(** *** The evaluation over the store *)

Lemma subscript_safe_ranges_spec param st :
  subscript_safe_ranges param st =
  (subscript (g_safe_ranges st) param, st).
Proof.
  unfold subscript_safe_ranges, bindM, read_safe_ranges, subscript.
  destruct (get (g_safe_ranges st) param); reflexivity.
Qed.

(** A call of [check_status] returns what the table in the store decides
    and leaves the store as it found it. *)
Lemma check_status_m_spec param value st :
  check_status_m param value st =
  (check_status (g_safe_ranges st) param value, st).
Proof.
  unfold check_status_m, check_status, bindM.
  rewrite subscript_safe_ranges_spec.
  destruct (subscript (g_safe_ranges st) param) as [[low high]|e];
    cbn [bind]; [|reflexivity].
  destruct (String.eqb param "Ammonia").
  - destruct (value <=? high)%float; [reflexivity|].
    destruct (value <=? 0.1)%float; reflexivity.
  - destruct (value <? low)%float; [reflexivity|].
    destruct (high <? value)%float; reflexivity.
Qed.

Lemma status_comprehension_m_spec its acc st :
  status_comprehension_m its acc st =
  (status_comprehension (g_safe_ranges st) its acc, st).
Proof.
  revert acc. induction its as [|[param val] its IH]; intros acc;
    cbn [status_comprehension_m status_comprehension]; [reflexivity|].
  unfold bindM. rewrite check_status_m_spec.
  destruct (check_status (g_safe_ranges st) param val) as [s|e];
    cbn [bind]; [apply IH|reflexivity].
Qed.

Lemma ideal_m_spec proj params st :
  ideal_m proj params st = (ideal (g_safe_ranges st) proj params, st).
Proof.
  induction params as [|p params IH]; cbn [ideal_m ideal]; [reflexivity|].
  unfold bindM. rewrite subscript_safe_ranges_spec.
  destruct (subscript (g_safe_ranges st) p) as [range|e]; cbn [bind];
    [|reflexivity].
  rewrite IH.
  destruct (ideal (g_safe_ranges st) proj params); reflexivity.
Qed.

(** A run of the evaluation returns what [evaluate] computes with the
    table of lines 138-143; the store it leaves holds that table and the
    session state it found. *)
Lemma evaluate_m_spec data st :
  evaluate_m data st =
  (evaluate safe_ranges data,
   {| g_safe_ranges := safe_ranges;
      g_session_state := g_session_state st |}).
Proof.
  unfold evaluate_m, evaluate, bindM, assign_safe_ranges.
  rewrite status_comprehension_m_spec. cbn [g_safe_ranges].
  destruct (status_comprehension safe_ranges (items data) []) as [sts|e];
    cbn [bind]; [|reflexivity].
  rewrite ideal_m_spec. cbn [g_safe_ranges].
  destruct (ideal safe_ranges fst (keys data)) as [imin|e]; cbn [bind];
    [|reflexivity].
  rewrite ideal_m_spec. cbn [g_safe_ranges].
  destruct (ideal safe_ranges snd (keys data)) as [imax|e]; reflexivity.
Qed.

(** C8. Classification is deterministic. A call of [check_status] leaves
    every object it can reach (the table [safe_ranges], the session state)
    as it found it, so a second call with the same parameter and value
    returns the same status or raises the same exception; what it returns
    depends on the parameter, the value and the table only. Consequently
    two evaluations of the same reading, one after the other, return
    identical results and leave the same store, and the result of an
    evaluation does not depend on what earlier runs left behind. *)
Theorem classification_deterministic :
  (forall st p v,
      let first := check_status_m p v st in
      let second := check_status_m p v (snd first) in
      snd first = st /\ fst second = fst first /\ snd second = st) /\
  (forall st p v,
      fst (check_status_m p v st) = check_status (g_safe_ranges st) p v) /\
  (forall st data,
      let first := evaluate_m data st in
      let second := evaluate_m data (snd first) in
      fst second = fst first /\ snd second = snd first /\
      g_session_state (snd first) = g_session_state st) /\
  (forall st st' data,
      fst (evaluate_m data st) = fst (evaluate_m data st')).
Proof.
  split; [|split; [|split]].
  - intros st p v. cbv zeta. rewrite !check_status_m_spec. cbn [fst snd].
    rewrite ?check_status_m_spec. auto.
  - intros st p v. rewrite check_status_m_spec. reflexivity.
  - intros st data. cbv zeta. rewrite !evaluate_m_spec. cbn [fst snd].
    rewrite ?evaluate_m_spec. auto.
  - intros st st' data. rewrite !evaluate_m_spec. reflexivity.
Qed.

(** ** More on the classifier *)

Lemma check_status_safe_ranges_ammonia v :
  check_status safe_ranges "Ammonia" v =
  Ok (if (v <=? 0.05)%float then Safe
      else if (v <=? 0.1)%float then Risky else Unsafe).
Proof.
  apply (check_status_ammonia safe_ranges 0%float 0.05%float v).
  reflexivity.
Qed.

Lemma two_sided_not_nan p low high :
  In (p, (low, high)) two_sided -> is_nan low = false /\ is_nan high = false.
Proof.
  unfold two_sided. cbn [In].
  intros [E|[E|[E|[]]]]; injection E as <- <- <-; split; reflexivity.
Qed.

(** X1. The Ammonia rule read backwards: the status is Safe only when
    [v <= 0.05], Risky only when [0.05 < v <= 0.1], and Unsafe only when
    [v > 0.1] or [v] is NaN. *)
Theorem ammonia_status_exact (v : float) :
  (check_status safe_ranges "Ammonia" v = Ok Safe <->
   (v <=? 0.05)%float = true) /\
  (check_status safe_ranges "Ammonia" v = Ok Risky <->
   (0.05 <? v)%float = true /\ (v <=? 0.1)%float = true) /\
  (check_status safe_ranges "Ammonia" v = Ok Unsafe <->
   (0.1 <? v)%float = true \/ is_nan v = true).
Proof.
  rewrite check_status_safe_ranges_ammonia.
  destruct (v <=? 0.05)%float eqn:L1; [|destruct (v <=? 0.1)%float eqn:L2].
  - split; [tauto|]. split; split; try discriminate.
    + intros [H _]. apply ltb_leb_false in H. congruence.
    + intros [H|H].
      * pose proof (ltb_leb_false _ _ (ltb_trans 0.05 0.1 v eq_refl H)).
        congruence.
      * pose proof (nan_leb_l v 0.05 H). congruence.
  - assert (N : is_nan v = false).
    { destruct (is_nan v) eqn:N; [|reflexivity].
      pose proof (nan_leb_l v 0.1 N). congruence. }
    split; [split; discriminate|]. split; split; try discriminate.
    + intros _. split; [|reflexivity].
      apply (leb_false_ltb v 0.05 N eq_refl L1).
    + tauto.
    + intros [H|H]; [|congruence].
      apply ltb_leb_false in H. congruence.
  - split; [split; discriminate|]. split; split; try discriminate.
    + intros [_ H]. discriminate.
    + intros _. destruct (is_nan v) eqn:N; [right; reflexivity|left].
      apply (leb_false_ltb v 0.1 N eq_refl L2).
    + reflexivity.
Qed.

(** X2. The two-sided rule read backwards, for Temperature, Dissolved
    Oxygen and pH: the status is Low only when [v < low], High only when
    [v > high], and Safe only when [low <= v <= high] or [v] is NaN. *)
Theorem two_sided_status_exact (p : string) (low high v : float) :
  In (p, (low, high)) two_sided ->
  (check_status safe_ranges p v = Ok Low <-> (v <? low)%float = true) /\
  (check_status safe_ranges p v = Ok High <-> (high <? v)%float = true) /\
  (check_status safe_ranges p v = Ok Safe <->
   ((low <=? v)%float = true /\ (v <=? high)%float = true) \/
   is_nan v = true).
Proof.
  intros I. destruct (two_sided_configured _ _ _ I) as (E & NA & LH).
  destruct (two_sided_not_nan _ _ _ I) as [Nl Nh].
  rewrite (check_status_other _ _ _ _ v E NA).
  destruct (v <? low)%float eqn:L1; [|destruct (high <? v)%float eqn:L2].
  - split; [tauto|]. split; split; try discriminate.
    + intros H. pose proof (ltb_ltb_false _ _ (ltb_trans _ _ _ L1 LH)).
      congruence.
    + intros [[H _]|H].
      * apply leb_ltb_false in H. congruence.
      * pose proof (nan_ltb_l v low H). congruence.
  - split; [split; discriminate|]. split; [tauto|]. split; try discriminate.
    intros [[_ H]|H].
    + apply leb_ltb_false in H. congruence.
    + pose proof (nan_ltb_r v high H). congruence.
  - split; [split; discriminate|]. split; [split; discriminate|].
    split; [|reflexivity]. intros _.
    destruct (is_nan v) eqn:N; [right; reflexivity|left]. split.
    + apply (ltb_false_leb v low N Nl L1).
    + apply (ltb_false_leb high v Nh N L2).
Qed.

Lemma two_sided_status_exact_witness :
  In ("Temperature", (25, 30)%float) two_sided /\
  check_status safe_ranges "Temperature" nan = Ok Safe.
Proof.
  assert (I : In ("Temperature", (25, 30)%float) two_sided) by (cbn; auto).
  split; [exact I|].
  apply (proj2 (proj2 (two_sided_status_exact "Temperature" 25 30 nan I))).
  right. reflexivity.
Defined.

(** X3. A larger Ammonia value never has a milder status: when
    [v <= v'], if [v'] is Safe so is [v], and if [v] is Unsafe so is
    [v']. *)
Theorem ammonia_monotone (v v' : float) :
  (v <=? v')%float = true ->
  (check_status safe_ranges "Ammonia" v' = Ok Safe ->
   check_status safe_ranges "Ammonia" v = Ok Safe) /\
  (check_status safe_ranges "Ammonia" v = Ok Unsafe ->
   check_status safe_ranges "Ammonia" v' = Ok Unsafe).
Proof.
  intros L. rewrite !check_status_safe_ranges_ammonia. split.
  - destruct (v' <=? 0.05)%float eqn:L1.
    + rewrite (leb_trans _ _ _ L L1). reflexivity.
    + destruct (v' <=? 0.1)%float; discriminate.
  - destruct (v <=? 0.05)%float eqn:L1; [discriminate|].
    destruct (v <=? 0.1)%float eqn:L2; [discriminate|]. intros _.
    assert (N : is_nan v = false).
    { destruct (is_nan v) eqn:N; [|reflexivity].
      pose proof (nan_leb_l v v' N). congruence. }
    pose proof (ltb_leb_trans _ _ _ (leb_false_ltb v 0.1 N eq_refl L2) L)
      as G.
    rewrite (ltb_leb_false _ _ G).
    rewrite (ltb_leb_false _ _ (ltb_trans 0.05 0.1 v' eq_refl G)).
    reflexivity.
Qed.

Lemma ammonia_monotone_witness :
  (0.2 <=? 0.3)%float = true /\
  check_status safe_ranges "Ammonia" 0.3 = Ok Unsafe.
Proof.
  split; [reflexivity|].
  apply (proj2 (ammonia_monotone 0.2 0.3 eq_refl)). reflexivity.
Defined.

(** X4. For Temperature, Dissolved Oxygen and pH the status follows the
    value: when [v <= v'], if [v'] is Low so is [v], and if [v] is High
    so is [v']. *)
Theorem two_sided_monotone (p : string) (low high v v' : float) :
  In (p, (low, high)) two_sided ->
  (v <=? v')%float = true ->
  (check_status safe_ranges p v' = Ok Low ->
   check_status safe_ranges p v = Ok Low) /\
  (check_status safe_ranges p v = Ok High ->
   check_status safe_ranges p v' = Ok High).
Proof.
  intros I L. destruct (two_sided_configured _ _ _ I) as (E & NA & LH).
  rewrite (check_status_other _ _ _ _ v E NA).
  rewrite (check_status_other _ _ _ _ v' E NA). split.
  - destruct (v' <? low)%float eqn:L1.
    + rewrite (leb_ltb_trans _ _ _ L L1). reflexivity.
    + destruct (high <? v')%float; discriminate.
  - destruct (v <? low)%float eqn:L1; [discriminate|].
    destruct (high <? v)%float eqn:L2; [|discriminate]. intros _.
    pose proof (ltb_leb_trans _ _ _ L2 L) as G.
    rewrite (ltb_ltb_false _ _ (ltb_trans _ _ _ LH G)), G. reflexivity.
Qed.

Lemma two_sided_monotone_witness :
  In ("pH", (6.5, 8.5)%float) two_sided /\ (9 <=? 10)%float = true /\
  check_status safe_ranges "pH" 10 = Ok High.
Proof.
  assert (I : In ("pH", (6.5, 8.5)%float) two_sided) by (cbn; auto).
  split; [exact I|]. split; [reflexivity|].
  apply (proj2 (two_sided_monotone "pH" 6.5 8.5 9 10 I eq_refl)).
  reflexivity.
Defined.

(** X14. The lower bound of the Ammonia range plays no part: two tables
    that give Ammonia the same upper bound classify every Ammonia value
    alike, whatever lower bounds they give. *)
Theorem ammonia_lower_bound_unused
  (table table' : dict (float * float)) (low low' high v : float) :
  get table "Ammonia" = Some (low, high) ->
  get table' "Ammonia" = Some (low', high) ->
  check_status table "Ammonia" v = check_status table' "Ammonia" v.
Proof.
  intros E E'.
  rewrite (check_status_ammonia table low high v E).
  rewrite (check_status_ammonia table' low' high v E').
  reflexivity.
Qed.

Lemma ammonia_lower_bound_unused_witness :
  check_status safe_ranges "Ammonia" 0.01 =
  check_status [("Ammonia", (0.02, 0.05)%float)] "Ammonia" 0.01.
Proof.
  apply (ammonia_lower_bound_unused safe_ranges
           [("Ammonia", (0.02, 0.05)%float)] 0 0.02 0.05 0.01);
    reflexivity.
Defined.

(** ** More on the evaluator *)

Section EvaluatorMore.

Variable table : dict (float * float).

Lemma configured_cons p v its :
  configured table ((p, v) :: its) <->
  get table p <> None /\ configured table its.
Proof.
  unfold configured. cbn. split.
  - intros C. split; [apply C; auto|]. intros q I. apply C. auto.
  - intros [Cp C] q [<-|I]; auto.
Qed.

Lemma configured_app its its' :
  configured table (its ++ its') <->
  configured table its /\ configured table its'.
Proof.
  unfold configured, keys. split.
  - intros C. split; intros q I; apply C; rewrite map_app; apply in_or_app;
      auto.
  - intros [C C'] q I. rewrite map_app in I. apply in_app_or in I.
    destruct I; auto.
Qed.

Lemma status_comprehension_configured its acc :
  configured table its ->
  exists st, status_comprehension table its acc = Ok st.
Proof.
  revert acc. induction its as [|[p v] its IH]; cbn; intros acc C; [eauto|].
  apply configured_cons in C. destruct C as [Cp C].
  destruct (proj2 (check_status_Ok_iff table p v) Cp) as [s ->]. cbn.
  apply IH, C.
Qed.

(** The comprehension stops at the first parameter without a row. *)
Lemma status_comprehension_first pre p v post acc :
  configured table pre -> get table p = None ->
  status_comprehension table (pre ++ (p, v) :: post) acc =
  Raise (KeyError p).
Proof.
  revert acc. induction pre as [|[q w] pre IH]; cbn; intros acc C N.
  - rewrite (check_status_unconfigured table p v N). reflexivity.
  - apply configured_cons in C. destruct C as [Cq C].
    destruct (proj2 (check_status_Ok_iff table q w) Cq) as [s ->]. cbn.
    apply IH; assumption.
Qed.

Lemma evaluate_Ok_iff data :
  (exists r, evaluate table data = Ok r) <-> configured table data.
Proof.
  split.
  - intros [r E]. exact (evaluate_Ok_configured table data r E).
  - intros C. unfold evaluate.
    destruct (status_comprehension_configured (items data) [] C) as [st ->].
    destruct (ideal_configured table fst (keys data) C) as [imin ->].
    destruct (ideal_configured table snd (keys data) C) as [imax ->].
    cbn. eauto.
Qed.

(** The bounds that [ideal] collects. *)
Lemma ideal_spec proj params l :
  ideal table proj params = Ok l ->
  Forall2 (fun p x => exists range, get table p = Some range /\
                                    x = proj range) params l.
Proof.
  revert l. induction params as [|p params IH]; cbn; intros l.
  - intros [= <-]. constructor.
  - unfold subscript. destruct (get table p) as [range|] eqn:E; cbn;
      [|discriminate].
    destruct (ideal table proj params) as [tl|]; cbn; [|discriminate].
    intros [= <-]. constructor; eauto.
Qed.

(** [evaluate] on a dictionary, with the pieces of its result. *)
Lemma evaluate_Ok_inv data r :
  wf data -> evaluate table data = Ok r ->
  exists l,
    Forall2 (classified table) data l /\
    status r = l /\
    status_counts r = value_counts (values l) /\
    col_Parameter (df_eval r) = keys data /\
    col_Value (df_eval r) = values data /\
    col_Status (df_eval r) = values l /\
    ideal table fst (keys data) = Ok (col_Ideal_Min (df_eval r)) /\
    ideal table snd (keys data) = Ok (col_Ideal_Max (df_eval r)).
Proof.
  intros W. unfold evaluate.
  rewrite status_comprehension_fresh by exact W. unfold items.
  destruct (classify_items table data) as [l|] eqn:El; cbn; [|discriminate].
  destruct (ideal table fst (keys data)) as [imin|]; cbn; [|discriminate].
  destruct (ideal table snd (keys data)) as [imax|]; cbn; [|discriminate].
  intros [= <-]. cbn. exists l.
  split; [apply classify_items_spec, El|]. repeat split; reflexivity.
Qed.

Lemma Forall2_classified_length its l :
  Forall2 (classified table) its l -> List.length l = List.length its.
Proof. intros F. symmetry. apply (Forall2_length F). Qed.

End EvaluatorMore.

(** X5. [evaluate] returns a result exactly when every parameter of the
    reading has a row in [safe_ranges]; otherwise the [KeyError] it
    raises names the first parameter of the reading without a row. *)
Theorem evaluate_raises_first_unconfigured (data : dict float) :
  ((exists r, evaluate safe_ranges data = Ok r) <->
   configured safe_ranges data) /\
  (forall pre p v post,
      data = pre ++ (p, v) :: post ->
      configured safe_ranges pre ->
      get safe_ranges p = None ->
      evaluate safe_ranges data = Raise (KeyError p)).
Proof.
  split; [apply evaluate_Ok_iff|].
  intros pre p v post -> C N. unfold evaluate, items.
  rewrite (status_comprehension_first safe_ranges pre p v post [] C N).
  reflexivity.
Qed.

Lemma evaluate_raises_first_unconfigured_witness :
  evaluate safe_ranges
    [ ("pH", 7%float); ("Salinity", 3%float); ("Turbidity", 1%float) ] =
  Raise (KeyError "Salinity").
Proof.
  apply (proj2 (evaluate_raises_first_unconfigured _)
           [("pH", 7%float)] "Salinity" 3%float [("Turbidity", 1%float)]).
  - reflexivity.
  - intros q [<-|[]]. discriminate.
  - reflexivity.
Defined.

(** X6. The evaluation of a reading submitted by the input form never
    raises, whatever the four numbers are: it returns one status per
    parameter in the order of the form, one of Low, Safe, High for
    Temperature, Dissolved Oxygen and pH and one of Safe, Risky, Unsafe
    for Ammonia. *)
Theorem form_reading_evaluates (t d a p : float) :
  exists r st sd sa sp,
    evaluate safe_ranges (reading t d a p) = Ok r /\
    status r = reading st sd sa sp /\
    check_status safe_ranges "Temperature" t = Ok st /\
    check_status safe_ranges "Dissolved Oxygen" d = Ok sd /\
    check_status safe_ranges "Ammonia" a = Ok sa /\
    check_status safe_ranges "pH" p = Ok sp /\
    In st [Low; Safe; High] /\ In sd [Low; Safe; High] /\
    In sa [Safe; Risky; Unsafe] /\ In sp [Low; Safe; High].
Proof.
  destruct (proj2 (evaluate_Ok_iff safe_ranges (reading t d a p))
              (reading_configured t d a p)) as [r E].
  destruct (evaluate_Ok_inv safe_ranges _ r (reading_wf t d a p) E)
    as (l & F & St & _).
  unfold reading in F.
  inversion F as [|? [k1 st] ? l1 [K1 C1] F1]; subst; clear F.
  inversion F1 as [|? [k2 sd] ? l2 [K2 C2] F2]; subst; clear F1.
  inversion F2 as [|? [k3 sa] ? l3 [K3 C3] F3]; subst; clear F2.
  inversion F3 as [|? [k4 sp] ? l4 [K4 C4] F4]; subst; clear F3.
  inversion F4; subst; clear F4. cbn in K1, K2, K3, K4. subst k1 k2 k3 k4.
  cbn [fst snd] in C1, C2, C3, C4.
  exists r, st, sd, sa, sp.
  split; [exact E|]. split; [symmetry; assumption|].
  repeat (split; [assumption|]).
  rewrite (check_status_other safe_ranges "Temperature" 25 30 t eq_refl)
    in C1 by discriminate.
  rewrite (check_status_other safe_ranges "Dissolved Oxygen" 5 10 d eq_refl)
    in C2 by discriminate.
  rewrite check_status_safe_ranges_ammonia in C3.
  rewrite (check_status_other safe_ranges "pH" 6.5 8.5 p eq_refl)
    in C4 by discriminate.
  repeat split.
  - destruct (t <? 25)%float, (30 <? t)%float; injection C1 as <-; cbn; auto.
  - destruct (d <? 5)%float, (10 <? d)%float; injection C2 as <-; cbn; auto.
  - destruct (a <=? 0.05)%float, (a <=? 0.1)%float; injection C3 as <-;
      cbn; auto.
  - destruct (p <? 6.5)%float, (8.5 <? p)%float; injection C4 as <-;
      cbn; auto.
Qed.

Lemma df_rows_spec table (its : list (string * float)) l imin imax :
  Forall2 (classified table) its l ->
  Forall2 (fun p x => exists range, get table p = Some range /\
                                    x = fst range) (keys its) imin ->
  Forall2 (fun p x => exists range, get table p = Some range /\
                                    x = snd range) (keys its) imax ->
  let rows :=
    combine (combine (combine (combine (keys its) (values its)) (values l))
               imin) imax in
  map (fun row : string * float * Status * float * float =>
         let '(p, v, _, _, _) := row in (p, v)) rows = its /\
  Forall (fun row : string * float * Status * float * float =>
            let '(p, v, s, lo, hi) := row in
            get table p = Some (lo, hi) /\ check_status table p v = Ok s)
    rows.
Proof.
  intros F. revert imin imax.
  induction F as [|[p v] [p' s] its l [K C] _ IH]; cbn;
    intros imin imax Fmin Fmax.
  - split; constructor.
  - inversion Fmin as [|? lo ? imin' (rmin & Gmin & ->) Fmin']; subst.
    inversion Fmax as [|? hi ? imax' (rmax & Gmax & ->) Fmax']; subst.
    destruct (IH _ _ Fmin' Fmax') as [M R]. cbn in *.
    split; [f_equal; exact M|]. constructor; [|exact R].
    split; [|exact C]. rewrite Gmin in Gmax. injection Gmax as <-.
    rewrite Gmin. destruct rmin; reflexivity.
Qed.

Lemma zip_combine {A B : Type} (xs : list A) (ys : list B) :
  List.length xs = List.length ys -> zip xs ys = Some (combine xs ys).
Proof.
  revert ys. induction xs as [|x xs IH]; intros [|y ys]; cbn;
    try discriminate; [reflexivity|].
  intros [= L]. rewrite (IH ys L). reflexivity.
Qed.

Lemma zip_length {A B : Type} (xs : list A) (ys : list B) rows :
  zip xs ys = Some rows ->
  List.length xs = List.length rows /\ List.length ys = List.length rows.
Proof.
  revert ys rows. induction xs as [|x xs IH]; intros [|y ys] rows; cbn;
    try discriminate.
  - intros [= <-]. auto.
  - destruct (zip xs ys) as [rest|] eqn:Z; [|discriminate].
    intros [= <-]. destruct (IH ys rest Z). cbn. auto.
Qed.

(** X7. The five columns of [df_eval] have the length of the reading, so
    the data frame has rows; they are the items of the reading, in order,
    each with the status of its value and with the two bounds that
    [safe_ranges] gives its parameter: no row mixes two parameters. *)
Theorem df_eval_rows (data : dict float) (r : EvaluationResult) :
  wf data -> evaluate safe_ranges data = Ok r ->
  (List.length (col_Parameter (df_eval r)) = List.length (items data) /\
   List.length (col_Value (df_eval r)) = List.length (items data) /\
   List.length (col_Status (df_eval r)) = List.length (items data) /\
   List.length (col_Ideal_Min (df_eval r)) = List.length (items data) /\
   List.length (col_Ideal_Max (df_eval r)) = List.length (items data)) /\
  exists rows,
    df_rows (df_eval r) = Some rows /\
    map (fun row : string * float * Status * float * float =>
           let '(p, v, _, _, _) := row in (p, v)) rows = data /\
    Forall (fun row : string * float * Status * float * float =>
              let '(p, v, s, lo, hi) := row in
              get safe_ranges p = Some (lo, hi) /\
              check_status safe_ranges p v = Ok s) rows.
Proof.
  intros W E.
  destruct (evaluate_Ok_inv safe_ranges data r W E)
    as (l & F & _ & _ & KP & KV & KS & Imin & Imax).
  pose proof (ideal_spec _ _ _ _ Imin) as Fmin.
  pose proof (ideal_spec _ _ _ _ Imax) as Fmax.
  assert (LP : List.length (keys data) = List.length data)
    by (unfold keys; apply length_map).
  assert (LV : List.length (values data) = List.length data)
    by (unfold values; apply length_map).
  assert (LS : List.length (values l) = List.length data).
  { unfold values. rewrite length_map.
    apply (Forall2_classified_length _ _ _ F). }
  assert (Lmin : List.length (col_Ideal_Min (df_eval r)) =
                 List.length data).
  { rewrite <- (Forall2_length Fmin). exact LP. }
  assert (Lmax : List.length (col_Ideal_Max (df_eval r)) =
                 List.length data).
  { rewrite <- (Forall2_length Fmax). exact LP. }
  unfold items. split.
  - rewrite KP, KV, KS. auto.
  - unfold df_rows. rewrite KP, KV, KS.
    rewrite (zip_combine (keys data) (values data)) by congruence.
    rewrite (zip_combine _ (values l))
      by (rewrite length_combine; lia).
    rewrite (zip_combine _ (col_Ideal_Min (df_eval r)))
      by (rewrite !length_combine; lia).
    rewrite (zip_combine _ (col_Ideal_Max (df_eval r)))
      by (rewrite !length_combine; lia).
    eexists. split; [reflexivity|].
    apply (df_rows_spec safe_ranges data l _ _ F Fmin Fmax).
Qed.

Lemma df_eval_rows_witness :
  exists r rows, evaluate safe_ranges reading_ammonia = Ok r /\
                 df_rows (df_eval r) = Some rows /\
                 List.length (col_Ideal_Max (df_eval r)) = 4.
Proof.
  eexists.
  destruct (df_eval_rows reading_ammonia _ (reading_wf _ _ _ _) eq_refl)
    as [(_ & _ & _ & _ & L) (rows & R & _)].
  exists rows. split; [reflexivity|]. split; [exact R|exact L].
Defined.

Lemma total_count_count_add t rows :
  total_count (count_add t rows) = S (total_count rows).
Proof.
  unfold total_count.
  induction rows as [|[u n] rows IH]; cbn; [reflexivity|].
  destruct (Status_eqb t u); cbn; [reflexivity|]. rewrite IH. lia.
Qed.

Lemma total_count_Permutation rows rows' :
  Permutation rows rows' -> total_count rows = total_count rows'.
Proof. unfold total_count. induction 1; cbn; lia. Qed.

Lemma total_count_value_counts col :
  total_count (value_counts col) = List.length col.
Proof.
  unfold value_counts, tally.
  rewrite (total_count_Permutation _ _ (sort_desc_Permutation _)).
  assert (G : forall rows,
             total_count (fold_left (fun acc s => count_add s acc) col rows) =
             total_count rows + List.length col).
  { induction col as [|t col IH]; intros rows; cbn [fold_left List.length];
      [lia|].
    rewrite IH, total_count_count_add. lia. }
  apply G.
Qed.

Lemma occurrences_le s col : occurrences s col <= List.length col.
Proof. unfold occurrences. apply filter_length_le. Qed.

Lemma all_safe_occurrences col :
  forallb (fun s => Status_eqb s Safe) col = true <->
  occurrences Safe col = List.length col.
Proof.
  induction col as [|s col IH]; cbn; [tauto|].
  pose proof (occurrences_le Safe col) as B. unfold occurrences in *.
  destruct s; cbn; rewrite ?IH; split; intros H; try discriminate; lia.
Qed.

(** X8. The counts of the pie chart add up to the number of parameters of
    the reading, and the verdict is favourable exactly when the count of
    Safe is that number. *)
Theorem status_counts_total (data : dict float) (r : EvaluationResult) :
  wf data -> evaluate safe_ranges data = Ok r ->
  total_count (status_counts r) = List.length (items data) /\
  (verdict r = true <->
   count_of Safe (status_counts r) = List.length (items data)).
Proof.
  intros W E.
  destruct (evaluate_Ok_inv safe_ranges data r W E)
    as (l & F & St & Cn & _).
  destruct (evaluate_fields _ _ _ E) as (_ & V & _).
  pose proof (Forall2_classified_length _ _ _ F) as Len.
  assert (LV : List.length (values l) = List.length data)
    by (unfold values; rewrite length_map; exact Len).
  unfold items. rewrite Cn, V, St, total_count_value_counts. split.
  - exact LV.
  - rewrite (proj2 (value_counts_spec (values l))), <- LV.
    apply all_safe_occurrences.
Qed.

Lemma status_counts_total_witness :
  exists r, evaluate safe_ranges reading_healthy = Ok r /\
            total_count (status_counts r) = 4 /\ verdict r = true.
Proof.
  eexists. split; [reflexivity|].
  destruct (status_counts_total reading_healthy _ (reading_wf _ _ _ _)
              eq_refl) as [T V].
  split; [exact T|]. apply (proj2 V). reflexivity.
Defined.

(** ** The recommendations *)

Lemma recommendation_level_success s :
  recommendation_level s = success <-> s = Safe.
Proof. destruct s; cbn; split; congruence. Qed.

Lemma recommendations_spec table data (its : list (string * float)) l :
  Forall2 (classified table) its l ->
  (forall p v, In (p, v) its -> get data p = Some v) ->
  exists recs,
    recommendations data l = Ok recs /\
    map (fun m => (msg_param m, msg_value m)) recs = its /\
    map msg_level recs = map (fun ks => recommendation_level (snd ks)) l.
Proof.
  induction 1 as [|[p v] [p' s] its l [K C] _ IH]; cbn; intros G; [eauto|].
  cbn in K. subst p'. unfold subscript. rewrite (G p v) by auto. cbn.
  destruct IH as (recs & -> & M & L); [intros q w I; apply G; auto|].
  cbn. eexists. split; [reflexivity|]. cbn. rewrite M, L. auto.
Qed.

(** X9. After a successful evaluation the recommendation loop never
    raises: it gives one message per parameter, in the order of the
    reading, with the parameter's own value and with the level of its
    status (success for Safe, warning for Low and Risky, error for High
    and Unsafe). The final verdict is a success exactly when every
    recommendation is one. *)
Theorem recommendations_follow_status (data : dict float)
  (r : EvaluationResult) :
  wf data -> evaluate safe_ranges data = Ok r ->
  exists recs,
    recommendations data (items (status r)) = Ok recs /\
    map (fun m => (msg_param m, msg_value m)) recs = data /\
    map msg_level recs =
    map (fun ks => recommendation_level (snd ks)) (status r) /\
    (forall m, In m recs ->
       (msg_level m = success <->
        check_status safe_ranges (msg_param m) (msg_value m) = Ok Safe) /\
       (msg_level m = warning <->
        check_status safe_ranges (msg_param m) (msg_value m) = Ok Low \/
        check_status safe_ranges (msg_param m) (msg_value m) = Ok Risky) /\
       (msg_level m = error <->
        check_status safe_ranges (msg_param m) (msg_value m) = Ok High \/
        check_status safe_ranges (msg_param m) (msg_value m) = Ok Unsafe)) /\
    (final_verdict (status r) = success <->
     Forall (fun m => msg_level m = success) recs).
Proof.
  intros W E.
  destruct (evaluate_Ok_inv safe_ranges data r W E) as (l & F & St & _).
  rewrite St. unfold items.
  destruct (recommendations_spec safe_ranges data data l F
              (fun p v => In_get data p v W)) as (recs & R & M & L).
  exists recs. split; [exact R|]. split; [exact M|]. split; [exact L|].
  split.
  - clear R W E St. revert recs M L.
    induction F as [|[p v] [p' s] its l [K C] _ IH]; intros recs M L m I;
      destruct recs as [|m0 recs]; try discriminate; [contradiction|].
    cbn in *. injection M as Mp Mv M. injection L as L0 L.
    destruct I as [<-|I]; [|apply (IH recs M L m I)].
    rewrite Mp, Mv, C, L0.
    destruct s; cbn; repeat split; intros; try discriminate;
      try reflexivity; auto;
      repeat match goal with
        | H : _ \/ _ |- _ => destruct H
        end; discriminate.
  - unfold final_verdict, values.
    rewrite <- (Forall_map msg_level (fun lv => lv = success)), L.
    rewrite Forall_map.
    destruct (forallb (fun s => Status_eqb s Safe) (map snd l)) eqn:A.
    + split; [intros _|reflexivity].
      rewrite forallb_forall in A. apply Forall_forall. intros [p s] I.
      apply recommendation_level_success.
      apply (reflect_iff _ _ (Status_eqb_spec s Safe)), A.
      change s with (snd (p, s)). apply in_map, I.
    + split; [discriminate|]. intros H. exfalso.
      apply not_true_iff_false in A. apply A. apply forallb_forall.
      intros s I. apply in_map_iff in I. destruct I as ([p t] & <- & I).
      rewrite Forall_forall in H.
      apply (reflect_iff _ _ (Status_eqb_spec t Safe)).
      apply recommendation_level_success, (H _ I).
Qed.

Lemma recommendations_follow_status_witness :
  exists r recs,
    evaluate safe_ranges reading_cold = Ok r /\
    recommendations reading_cold (items (status r)) = Ok recs /\
    map msg_level recs = [warning; success; success; success].
Proof.
  eexists.
  destruct (recommendations_follow_status reading_cold _
              (reading_wf _ _ _ _) eq_refl) as (recs & R & _ & L & _).
  exists recs. split; [reflexivity|]. split; [exact R|exact L].
Defined.

(** X10. The two colour maps of the charts are the same, they have a
    colour for each of the five status labels, and the colour agrees with
    the level of the recommendation: green for a success, orange for a
    warning, red for an error. *)
Theorem colours_follow_levels (s : Status) :
  get pie_color_map (Status_str s) = get bar_color_map (Status_str s) /\
  (get pie_color_map (Status_str s) = Some "green" <->
   recommendation_level s = success) /\
  (get pie_color_map (Status_str s) = Some "orange" <->
   recommendation_level s = warning) /\
  (get pie_color_map (Status_str s) = Some "red" <->
   recommendation_level s = error).
Proof.
  destruct s; cbn; repeat split; intros H; try discriminate; reflexivity.
Qed.

(** ** The data set loader *)

Lemma string_app_assoc (a b c : string) :
  ((a ++ b) ++ c = a ++ (b ++ c))%string.
Proof.
  induction a as [|x a IH]; cbn; [reflexivity|]. rewrite IH. reflexivity.
Qed.

Lemma list_ascii_of_string_app (a b : string) :
  list_ascii_of_string (a ++ b) =
  list_ascii_of_string a ++ list_ascii_of_string b.
Proof.
  induction a as [|x a IH]; cbn; [reflexivity|]. rewrite IH. reflexivity.
Qed.

(** A string whose last character is ["/"]. *)
Lemma substring_last_slash (s : string) :
  substring (String.length s - 1) 1 s = "/" ->
  exists q, s = (q ++ "/")%string.
Proof.
  induction s as [|c s IH]; cbn; [discriminate|].
  destruct s as [|c' s'].
  - cbn. intros [= ->]. exists "". reflexivity.
  - cbn [String.length] in *. rewrite Nat.sub_0_r in *.
    replace (S (String.length s') - 1) with (String.length s') in IH by lia.
    cbn [substring]. intros H. destruct (IH H) as [q ->].
    exists (String c q). reflexivity.
Qed.

(** Joining a relative file name keeps it as the last component. *)
Lemma join1_relative (path b : string) :
  String.prefix "/" b = false ->
  exists pre, join1 path b = (pre ++ b)%string /\
              (pre = "" \/ exists q, pre = (q ++ "/")%string).
Proof.
  intros R. unfold join1. rewrite R.
  destruct (String.eqb_spec path "") as [->|N].
  - exists "". auto.
  - destruct (String.eqb_spec
                (substring (String.length path - 1) 1 path) "/") as [E|_].
    + exists path. split; [reflexivity|]. right.
      apply substring_last_slash, E.
    + exists (path ++ "/")%string. split.
      * rewrite string_app_assoc. reflexivity.
      * right. eauto.
Qed.

Lemma candidates_shape (file_dir p : string) :
  In p (candidates file_dir) ->
  exists pre, p = (pre ++ "water.csv")%string /\
              (pre = "" \/ exists q, pre = (q ++ "/")%string).
Proof.
  unfold candidates, path_join. cbn [In fold_left].
  intros [<-|[<-|[<-|[<-|[]]]]].
  - exists "". auto.
  - exists "data/". split; [reflexivity|]. right. exists "data". reflexivity.
  - apply join1_relative. reflexivity.
  - apply join1_relative. reflexivity.
Qed.

Lemma candidates_not_empty (file_dir p : string) :
  In p (candidates file_dir) -> String.eqb p "" = false.
Proof.
  intros I. destruct (candidates_shape _ _ I) as (pre & -> & _).
  apply String.eqb_neq. destruct pre; discriminate.
Qed.

(** No path ends both in [water.csv] and in [water_potability.csv]. *)
Lemma water_csv_suffix (pre q : string) :
  (pre ++ "water.csv")%string <> (q ++ "water_potability.csv")%string.
Proof.
  intros E. apply (f_equal list_ascii_of_string) in E.
  rewrite !list_ascii_of_string_app in E.
  apply (f_equal (@rev Ascii.ascii)) in E.
  rewrite !rev_app_distr in E. cbn in E. discriminate.
Qed.

Section LoaderFacts.

Variable path_exists : string -> bool.
Variable read_csv : string -> option Frame.
Variable file_dir : string.

Lemma load_from_none ps :
  (forall p, In p ps -> path_exists p = false) ->
  load_from path_exists read_csv ps = (fallback_frame, [NotFound]).
Proof.
  induction ps as [|p ps IH]; cbn; intros H; [reflexivity|].
  rewrite (H p) by auto. rewrite andb_false_r. apply IH. auto.
Qed.

Lemma load_from_first pre p post :
  (forall q, In q pre -> path_exists q = false) ->
  String.eqb p "" = false -> path_exists p = true ->
  load_from path_exists read_csv (pre ++ p :: post) =
  match read_csv p with
  | Some df => (df, [])
  | None => ([], [ReadFailed p])
  end.
Proof.
  induction pre as [|q pre IH]; cbn; intros H N E.
  - rewrite N, E. reflexivity.
  - rewrite (H q) by auto. rewrite andb_false_r. apply IH; auto.
Qed.

End LoaderFacts.





(** ** The dashboard *)

Lemma no_data_empty_columns (df : Frame) (c : string) :
  (forall col, get df c = Some col -> dropna col = []) ->
  no_data df c = true.
Proof.
  unfold no_data. intros H. destruct (get df c) as [col|]; [|reflexivity].
  rewrite (H col eq_refl). reflexivity.
Qed.

Lemma get_fallback_frame (c : string) (col : list (option float)) :
  get fallback_frame c = Some col -> col = [].
Proof.
  unfold fallback_frame. cbn.
  repeat match goal with
    | |- context [String.eqb c ?k] => destruct (String.eqb c k)
    end; congruence.
Qed.



(** The two panes of the dashboard agree: either both show the note or
    both draw, and then the histogram is over the values of the column
    that the box plot names, which are not empty. *)
Lemma dashboard_panes_agree (df : Frame) (parameter : string) :
  (histogram_pane df parameter = NoData parameter /\
   box_pane df parameter = NoData parameter) \/
  (exists col x xs,
      get df (display_column parameter) = Some col /\
      dropna col = x :: xs /\
      histogram_pane df parameter = Histogram parameter (x :: xs) /\
      box_pane df parameter = BoxPlot parameter (display_column parameter)).
Proof.
  unfold histogram_pane, box_pane, no_data.
  destruct (get df (display_column parameter)) as [col|]; [|auto].
  destruct (dropna col) as [|x xs] eqn:D; [auto|].
  right. exists col, x, xs. auto.
Qed.

(** ** The pages of one session *)

Lemma get_set_same {V : Type} (d : dict V) (k : string) (v : V) :
  get (set d k v) k = Some v.
Proof.
  induction d as [|[k' v'] d IH]; cbn.
  - rewrite String.eqb_refl. reflexivity.
  - destruct (String.eqb_spec k k') as [->|N]; cbn.
    + rewrite String.eqb_refl. reflexivity.
    + apply String.eqb_neq in N. rewrite N. exact IH.
Qed.

Lemma evaluation_page_form (ss : dict (dict float)) (f : Form) :
  get ss "inputs" = Some (form_reading f) ->
  exists r recs,
    evaluate safe_ranges (form_reading f) = Ok r /\
    recommendations (form_reading f) (items (status r)) = Ok recs /\
    evaluation_page ss = Ok (Evaluated r recs (final_verdict (status r))).
Proof.
  intros G. unfold evaluation_page. rewrite G. unfold form_reading.
  destruct (proj2 (evaluate_Ok_iff safe_ranges
                     (reading (temp f) (do f) (ammonia f) (ph f)))
              (reading_configured _ _ _ _)) as [r E].
  assert (F : Forall2 (classified safe_ranges)
                (reading (temp f) (do f) (ammonia f) (ph f)) (status r)).
  { destruct (evaluate_Ok_inv safe_ranges _ r (reading_wf _ _ _ _) E)
      as (l & F & -> & _). exact F. }
  destruct (recommendations_spec safe_ranges
              (reading (temp f) (do f) (ammonia f) (ph f)) _ _ F)
    as (recs & R & _).
  - intros p v. apply In_get, reading_wf.
  - exists r, recs. rewrite E. cbn [bind]. unfold items. rewrite R.
    cbn [bind]. auto.
Qed.

(** What one run stores under ["inputs"]. *)
Lemma run_state_inputs (w : Widgets) (ss : dict (dict float)) :
  get (run_state w ss) "inputs" =
  if submits w then Some (form_reading (form w)) else get ss "inputs".
Proof.
  unfold run_state, submits, farmer_input_page.
  destruct (page w); try reflexivity.
  destruct (submitted (form w)); [apply get_set_same|reflexivity].
Qed.

(** The state that the runs keep: the reading under ["inputs"], when
    there is one, came from the form. *)
Lemma session_after_inputs (ws : list Widgets) (ss : dict (dict float)) :
  (forall data, get ss "inputs" = Some data ->
                exists f, data = form_reading f) ->
  get (session_after ws ss) "inputs" = stored_inputs ws (get ss "inputs") /\
  (forall data, get (session_after ws ss) "inputs" = Some data ->
                exists f, data = form_reading f).
Proof.
  unfold session_after. revert ss.
  induction ws as [|w ws IH]; intros ss Inv; cbn [fold_left stored_inputs].
  - auto.
  - rewrite <- run_state_inputs. apply IH.
    intros data. rewrite run_state_inputs.
    destruct (submits w); [|apply Inv].
    intros [= <-]. eauto.
Qed.

Lemma stored_inputs_app ws ws' current :
  stored_inputs (ws ++ ws') current =
  stored_inputs ws' (stored_inputs ws current).
Proof.
  revert current. induction ws as [|w ws IH]; intros current; cbn;
    [reflexivity|apply IH].
Qed.

Lemma stored_inputs_none ws current :
  forallb (fun w => negb (submits w)) ws = true ->
  stored_inputs ws current = current.
Proof.
  revert current. induction ws as [|w ws IH]; intros current; cbn;
    [reflexivity|].
  destruct (submits w); cbn; [discriminate|]. apply IH.
Qed.

(** X15. In a session the evaluation page never raises, whatever pages
    were visited and whatever was entered before. It shows the warning of
    line 130 when no form was submitted before, and otherwise the
    evaluation of the reading of the last submitted form; visits of the
    dashboard, of the evaluation page and of the input page without the
    button pressed change nothing of that. *)
Theorem session_shows_last_submission (before : list Widgets) :
  exists o,
    evaluation_page (session_after before []) = Ok o /\
    (forallb (fun w => negb (submits w)) before = true -> o = NoInputs) /\
    (forall earlier s later,
        before = earlier ++ s :: later ->
        submits s = true ->
        forallb (fun w => negb (submits w)) later = true ->
        exists r recs,
          evaluate safe_ranges (form_reading (form s)) = Ok r /\
          recommendations (form_reading (form s)) (items (status r)) =
          Ok recs /\
          o = Evaluated r recs (final_verdict (status r))).
Proof.
  destruct (session_after_inputs before []) as [G Inv]; [discriminate|].
  cbn [get] in G.
  destruct (get (session_after before []) "inputs") as [data|] eqn:G0.
  - destruct (Inv data eq_refl) as [f ->].
    destruct (evaluation_page_form _ f G0) as (r & recs & E & Rc & ->).
    exists (Evaluated r recs (final_verdict (status r))).
    split; [reflexivity|]. split.
    + intros N. rewrite (stored_inputs_none _ _ N) in G. discriminate.
    + intros earlier s later -> Sb N.
      rewrite stored_inputs_app in G. cbn [stored_inputs] in G.
      rewrite Sb, (stored_inputs_none _ _ N) in G.
      assert (Eqr : form_reading (form s) = form_reading f) by congruence.
      rewrite Eqr. eauto.
  - unfold evaluation_page. rewrite G0.
    exists NoInputs. split; [reflexivity|]. split; [reflexivity|].
    intros earlier s later -> Sb N.
    rewrite stored_inputs_app in G. cbn [stored_inputs] in G.
    rewrite Sb, (stored_inputs_none _ _ N) in G. discriminate.
Qed.

Lemma session_shows_last_submission_witness :
  exists r recs,
    evaluation_page
      (session_after
         [ {| page := FarmerInput;
              form := {| temp := 20; do := 7; ammonia := 0.02; ph := 7.2;
                         submitted := true |} |};
           {| page := Dashboard;
              form := {| temp := 0; do := 0; ammonia := 0; ph := 0;
                         submitted := false |} |} ] []) =
    Ok (Evaluated r recs (final_verdict (status r))) /\
    evaluate safe_ranges reading_cold = Ok r.
Proof.
  pose (s := {| page := FarmerInput;
                form := {| temp := 20%float; do := 7%float;
                           ammonia := 0.02%float; ph := 7.2%float;
                           submitted := true |} |}).
  pose (d := {| page := Dashboard;
                form := {| temp := 0%float; do := 0%float;
                           ammonia := 0%float; ph := 0%float;
                           submitted := false |} |}).
  destruct (session_shows_last_submission [s; d]) as (o & R & _ & Last).
  destruct (Last [] s [d] eq_refl eq_refl eq_refl) as (r & recs & E & _ & ->).
  exists r, recs. split; [exact R|exact E].
Defined.
